(** * ValidatorConfig: rule-based validation policy of ndn-cxx

    A shallow embedding of [src/security/validator-config.cpp]: the
    constructor, the loading of a configuration tree into the rule lists and
    the trust-anchor map, and the two [checkPolicy] overloads.

    Conventions.
    - [shared_ptr<T>] is [option T]; the null pointer is [None].
    - [int] and [int8_t] values are [Z]; the code only compares them.
    - [std::string] is [string]; a name is the list of its components.
    - [std::map<Name, ...>] is a [gmap]; [std::vector] and [std::list] are
      lists in insertion order.
    - A function that may throw returns a [Result]; a member function that
      also mutates the validator is an [Action], which hands back the
      validator as it is when the function is left, normally or not.
    - The callbacks and calls a [checkPolicy] run makes are recorded, in
      order, as a list of [Event]s. *)

From stdpp Require Import gmap strings list pretty.
From Stdlib Require Import ZArith Ascii String.

Set Warnings "-register-all".
Local Open Scope string_scope.
Local Open Scope list_scope.
Local Open Scope Z_scope.


(** ** Strings *)

(** [std::toupper] in the classic locale. *)
Definition to_upper (c : ascii) : ascii :=
  let n := nat_of_ascii c in
  if ((97 <=? n) && (n <=? 122))%nat then ascii_of_nat (n - 32) else c.

Fixpoint map_string (f : ascii -> ascii) (s : string) : string :=
  match s with
  | EmptyString => EmptyString
  | String c s' => String (f c) (map_string f s')
  end.

(** [boost::iequals]: equality of the two character sequences up to case. *)
Definition iequals (a b : string) : bool :=
  String.eqb (map_string to_upper a) (map_string to_upper b).

(** [t] occurs in [s] as a contiguous substring. *)
Fixpoint isInfix (t s : string) : bool :=
  if String.prefix t s then true
  else match s with
       | EmptyString => false
       | String _ s' => isInfix t s'
       end.

(** ** Names, packets, signatures *)

Abbreviation Component := string (only parsing).
Abbreviation Name := (list string) (only parsing).

(** Modelled from the spec: class [Name] is declared outside this file.
    A negative count or index is taken from the end of the name:
    [getPrefix (-n)] is the name with its last [n] components stripped and
    [name[-n]] is the [n]-th component from the end.  An index outside the
    name has no component to return. *)
Definition Name_size (n : Name) : Z := Z.of_nat (List.length n).

Definition getPrefix (nComponents : Z) (n : Name) : Name :=
  if nComponents <? 0
  then take (Z.to_nat (Name_size n + nComponents)) n
  else take (Z.to_nat nComponents) n.

Definition Name_get (n : Name) (i : Z) : option Component :=
  let j := if 0 <=? i then i else Name_size n + i in
  if (0 <=? j) && (j <? Name_size n) then n !! Z.to_nat j else None.

(** A TLV block decoded from the value of a name component. *)
Inductive Block := blockFromValue (value : Component).

Record Signature := mkSignature { sig_info : Block; sig_value : Block }.

Record Data := mkData { Data_getName : Name; Data_getSignature : Signature }.

Record Interest := mkInterest { Interest_getName : Name }.

Record IdentityCertificate := mkCert {
  Cert_getName : Name;
  Cert_content : string
}.

(** ** The validator object *)

Record Face := mkFace { ioService : nat }.

(** [CertificateCache] is an interface; [CertificateCacheTtl] is the
    implementation this file constructs, from an io service. *)
Inductive CertificateCache :=
| CertificateCacheTtl (io : nat)
| CertificateCacheOther (tag : nat).

(** How a call ends: it returns, it throws, or an assertion fails. *)
Inductive Result (A : Type) :=
| Ok (a : A)
| Throw (msg : string)
| AssertFailed.
Arguments Ok {A} a.
Arguments Throw {A} msg.
Arguments AssertFailed {A}.

(** A property tree: the node's own data and its ordered children. *)
Inductive ConfigSection :=
| Node (data : string) (children : list (string * ConfigSection)).

Definition cs_data (s : ConfigSection) : string :=
  match s with Node d _ => d end.

Definition cs_children (s : ConfigSection) : list (string * ConfigSection) :=
  match s with Node _ c => c end.

(** The collaborators of this file that live elsewhere in the library:
    the filter and checker classes with their factories, certificate
    input, and path handling.  A factory either creates its object or
    throws a configuration error, whose message is the left summand;
    certificate input returns a null pointer when it cannot decode. *)
Class Collaborators := {
  Filter : Type;
  Checker : Type;
  FilterFactory_create : ConfigSection -> string + Filter;
  CheckerFactory_create : ConfigSection -> string -> string + Checker;
  io_load_file : string -> option IdentityCertificate;
  io_load_stream : string -> option IdentityCertificate;
  parent_path : string -> string;
  absolute : string -> string -> string
}.

Section WithCollaborators.
Context `{Collaborators}.

(** [Rule<Packet>]: an id, filters and checkers in the order of addition. *)
Record Rule := mkRule {
  m_id : string;
  m_filters : list Filter;
  m_checkers : list Checker
}.

Definition Rule_new (id : string) : Rule := mkRule id [] [].

Definition addFilter (r : Rule) (f : Filter) : Rule :=
  mkRule (m_id r) (m_filters r ++ [f]) (m_checkers r).

Definition addChecker (r : Rule) (c : Checker) : Rule :=
  mkRule (m_id r) (m_filters r) (m_checkers r ++ [c]).

Record ValidatorConfig := mkValidator {
  m_face : option Face;
  m_stepLimit : Z;
  m_certificateCache : option CertificateCache;
  m_dataRules : list Rule;
  m_interestRules : list Rule;
  m_anchors : gmap Name IdentityCertificate
}.

Definition set_certificateCache (v : ValidatorConfig)
    (c : option CertificateCache) : ValidatorConfig :=
  mkValidator (m_face v) (m_stepLimit v) c
              (m_dataRules v) (m_interestRules v) (m_anchors v).

Definition DEFAULT_CERTIFICATE_CACHE : option CertificateCache := None.

(** [ValidatorConfig::ValidatorConfig]: the members are initialised from
    the arguments ([m_face] by the base class), then the body runs. *)
Definition ValidatorConfig_new (face : option Face)
    (certificateCache : option CertificateCache) (stepLimit : Z)
  : Result ValidatorConfig :=
  let this := mkValidator face stepLimit certificateCache [] [] ∅ in
  match face with
  | None => Throw "Face is not set!"
  | Some m_face =>
      match m_certificateCache this with
      | Some _ => Ok this
      | None =>
          Ok (set_certificateCache this
                (Some (CertificateCacheTtl (ioService m_face))))
      end
  end.

(** ** Loading a configuration tree *)

(** A member function that may throw: the result, and the validator as the
    function leaves it.  An exception does not undo earlier mutations. *)
Definition Action (A : Type) : Type :=
  ValidatorConfig -> Result A * ValidatorConfig.

Definition ret {A} (a : A) : Action A := fun this => (Ok a, this).

Definition throw {A} (msg : string) : Action A := fun this => (Throw msg, this).

Definition assert (b : bool) : Action unit :=
  fun this => (if b then Ok tt else AssertFailed, this).

Definition lift {A} (r : Result A) : Action A := fun this => (r, this).

Definition modify (f : ValidatorConfig -> ValidatorConfig) : Action unit :=
  fun this => (Ok tt, f this).

#[global] Instance Action_bind : MBind Action := fun A B k c this =>
  match c this with
  | (Ok a, this') => k a this'
  | (Throw e, this') => (Throw e, this')
  | (AssertFailed, this') => (AssertFailed, this')
  end.

Definition push_dataRule (rule : Rule) (v : ValidatorConfig) : ValidatorConfig :=
  mkValidator (m_face v) (m_stepLimit v) (m_certificateCache v)
              (m_dataRules v ++ [rule]) (m_interestRules v) (m_anchors v).

Definition push_interestRule (rule : Rule) (v : ValidatorConfig) : ValidatorConfig :=
  mkValidator (m_face v) (m_stepLimit v) (m_certificateCache v)
              (m_dataRules v) (m_interestRules v ++ [rule]) (m_anchors v).

Definition set_anchor (key : Name) (cert : IdentityCertificate)
    (v : ValidatorConfig) : ValidatorConfig :=
  mkValidator (m_face v) (m_stepLimit v) (m_certificateCache v)
              (m_dataRules v) (m_interestRules v) (<[key := cert]> (m_anchors v)).

Definition isEnd {A} (propertyIt : list A) : bool :=
  match propertyIt with [] => true | _ => false end.

(** The loop "Get rule.filter(s)": returns the filters collected and the
    position at which the loop is left. *)
Fixpoint getFilters (ruleId : string)
    (propertyIt : list (string * ConfigSection)) (filters : list Filter)
  : Result (list Filter * list (string * ConfigSection)) :=
  match propertyIt with
  | [] => Ok (filters, [])
  | (first, second) :: next =>
      if negb (iequals first "filter") then
        if iequals first "checker" then Ok (filters, propertyIt)
        else Throw ("Expect <rule.filter> in rule: " +:+ ruleId)
      else
        match FilterFactory_create second with
        | inl msg => Throw msg
        | inr f => getFilters ruleId next (filters ++ [f])
        end
  end.

(** The loop "Get rule.checker(s)". *)
Fixpoint getCheckers (ruleId filename : string)
    (propertyIt : list (string * ConfigSection)) (checkers : list Checker)
  : Result (list Checker * list (string * ConfigSection)) :=
  match propertyIt with
  | [] => Ok (checkers, [])
  | (first, second) :: next =>
      if negb (iequals first "checker") then
        Throw ("Expect <rule.checker> in rule: " +:+ ruleId)
      else
        match CheckerFactory_create second filename with
        | inl msg => Throw msg
        | inr c => getCheckers ruleId filename next (checkers ++ [c])
        end
  end.

Definition makeRule (ruleId : string) (filters : list Filter)
    (checkers : list Checker) : Rule :=
  fold_left addChecker checkers (fold_left addFilter filters (Rule_new ruleId)).

(** [ValidatorConfig::onConfigRule] *)
Definition onConfigRule (configSection : ConfigSection) (filename : string)
  : Action unit :=
  match cs_children configSection with
  | [] => throw "Expect <rule.id>!"
  | (first, second) :: propertyIt =>
    if negb (iequals first "id") then throw "Expect <rule.id>!" else
    let ruleId := cs_data second in
    match propertyIt with
    | [] => throw ("Expect <rule.for> in rule: " +:+ ruleId +:+ "!")
    | (first, second) :: propertyIt =>
      if negb (iequals first "for")
      then throw ("Expect <rule.for> in rule: " +:+ ruleId +:+ "!") else
      let usage := cs_data second in
      isForData ←
        (if iequals usage "data" then ret true
         else if iequals usage "interest" then ret false
         else throw ("Unrecognized <rule.for>: " +:+ usage
                     +:+ " in rule: " +:+ ruleId));
      '(filters, propertyIt) ← lift (getFilters ruleId propertyIt []);
      '(checkers, propertyIt) ←
        lift (getCheckers ruleId filename propertyIt []);
      _ ← (if negb (isEnd propertyIt)
           then throw ("Expect the end of rule: " +:+ ruleId) else ret tt);
      _ ← (if (List.length checkers =? 0)%nat
           then throw ("No <rule.checker> is specified in rule: " +:+ ruleId)
           else ret tt);
      if isForData : bool
      then modify (push_dataRule (makeRule ruleId filters checkers))
      else modify (push_interestRule (makeRule ruleId filters checkers))
    end
  end.

(** The two places that store a loaded certificate. *)
Definition storeAnchor (idCert : IdentityCertificate) : Action unit :=
  _ ← assert (1 <=? Name_size (Cert_getName idCert));
  modify (set_anchor (getPrefix (-1) (Cert_getName idCert)) idCert).

(** [ValidatorConfig::onConfigTrustAnchor] *)
Definition onConfigTrustAnchor (configSection : ConfigSection)
    (filename : string) : Action unit :=
  match cs_children configSection with
  | [] => throw "Expect <trust-anchor.type>!"
  | (first, second) :: propertyIt =>
    if negb (iequals first "type") then throw "Expect <trust-anchor.type>!" else
    let type := cs_data second in
    if iequals type "file" then
      match propertyIt with
      | [] => throw "Expect <trust-anchor.file-name>!"
      | (first, second) :: propertyIt =>
        if negb (iequals first "file-name")
        then throw "Expect <trust-anchor.file-name>!" else
        let file := cs_data second in
        if negb (isEnd propertyIt)
        then throw "Expect the end of trust-anchor!" else
        let certfilePath := absolute file (parent_path filename) in
        match io_load_file certfilePath with
        | Some idCert => storeAnchor idCert
        | None =>
            throw ("Cannot read certificate from file: " +:+ certfilePath)
        end
      end
    else if iequals type "base64" then
      match propertyIt with
      | [] => throw "Expect <trust-anchor.base64-string>!"
      | (first, second) :: propertyIt =>
        if negb (iequals first "base64-string")
        then throw "Expect <trust-anchor.base64-string>!" else
        let ss := cs_data second in
        if negb (isEnd propertyIt)
        then throw "Expect the end of trust-anchor!" else
        match io_load_stream ss with
        | Some idCert => storeAnchor idCert
        | None => throw "Cannot decode certificate from base64-string"
        end
      end
    else throw ("Unsupported trust-anchor.type: " +:+ type)
  end.

(** The body of the loop over the sections of the tree. *)
Definition onSection (sectionName : string) (section : ConfigSection)
    (filename : string) : Action unit :=
  if iequals sectionName "rule" then onConfigRule section filename
  else if iequals sectionName "trust-anchor"
  then onConfigTrustAnchor section filename
  else throw ("Error processing configuration file" +:+ " " +:+ filename
              +:+ " unrecognized section: " +:+ sectionName).

Fixpoint loadSections (i : list (string * ConfigSection)) (filename : string)
  : Action unit :=
  match i with
  | [] => ret tt
  | (sectionName, section) :: next =>
      _ ← onSection sectionName section filename;
      loadSections next filename
  end.

(** [ValidatorConfig::load(const ConfigSection&, const std::string&)] *)
Definition load (configSection : ConfigSection) (filename : string)
  : Action unit :=
  _ ← assert (negb (String.eqb filename EmptyString));
  if isEnd (cs_children configSection)
  then throw ("Error processing configuration file" +:+ ": " +:+ filename
              +:+ " no data")
  else loadSections (cs_children configSection) filename.

(** ** Policy checking *)

(** What a checker does with the two callbacks it is handed. *)
Inductive Callback :=
| Validated
| ValidationFailed (reason : string).

(** What a [checkPolicy] run does, in order: a call of a rule's [match]
    with its result, a call of a rule's [check] with its result and the
    callbacks the rule's checkers invoked, an invocation of
    [onValidationFailed] by [checkPolicy] itself, a call of
    [checkSignature].  Rules are named by their position in the list. *)
Inductive Event :=
| RuleMatch (pos : nat) (matched : bool)
| RuleCheck (pos : nat) (checkResult : Z) (invoked : list Callback)
| OnValidationFailed (reason : string)
| CheckSignature (signature : Signature) (stepCount : Z).

(** [Rule<Packet>::match] and [Rule<Packet>::check], defined with the
    rule class outside this file. *)
Class RuleOps (Packet : Type) := {
  Rule_match : Rule -> Packet -> bool;
  Rule_check : Rule -> Packet -> Z * list Callback
}.

(** A run either returns or indexes a name outside its range. *)
Inductive Run :=
| Returned (trace : list Event)
| OutOfRange (trace : list Event).

Definition traceOf (r : Run) : list Event :=
  match r with Returned t | OutOfRange t => t end.

(** The loop over the rule list, from the rule at position [pos] on:
    [isMatched], [checkResult], and what the loop did. *)
Fixpoint scanRules {Packet} `{RuleOps Packet} (pos : nat) (it : list Rule)
    (packet : Packet) : bool * Z * list Event :=
  match it with
  | [] => (false, -1, [])
  | rule :: next =>
      if Rule_match rule packet then
        let '(checkResult, invoked) := Rule_check rule packet in
        (true, checkResult,
         [RuleMatch pos true; RuleCheck pos checkResult invoked])
      else
        let '(isMatched, checkResult, trace) :=
          scanRules (S pos) next packet in
        (isMatched, checkResult, RuleMatch pos false :: trace)
  end.

Definition maxStepsReached : string := "Maximum steps of validation reached".
Definition noRuleMatched : string := "No rule matched!".

Context `{RuleOps Data} `{RuleOps Interest}.

(** [ValidatorConfig::checkPolicy(const Data&, ...)] *)
Definition checkPolicy_Data (this : ValidatorConfig) (data : Data)
    (stepCount : Z) : Run :=
  if m_stepLimit this =? stepCount
  then Returned [OnValidationFailed maxStepsReached]
  else
    let '(isMatched, checkResult, trace) :=
      scanRules 0 (m_dataRules this) data in
    if negb isMatched
    then Returned (trace ++ [OnValidationFailed noRuleMatched])
    else if checkResult =? 0 then
      let signature := Data_getSignature data in
      Returned (trace ++ [CheckSignature signature stepCount])
    else Returned trace.

(** [ValidatorConfig::checkPolicy(const Interest&, ...)] *)
Definition checkPolicy_Interest (this : ValidatorConfig) (interest : Interest)
    (stepCount : Z) : Run :=
  if m_stepLimit this =? stepCount
  then Returned [OnValidationFailed maxStepsReached]
  else
    let '(isMatched, checkResult, trace) :=
      scanRules 0 (m_interestRules this) interest in
    if negb isMatched
    then Returned (trace ++ [OnValidationFailed noRuleMatched])
    else if checkResult =? 0 then
      let interestName := Interest_getName interest in
      let signedName := getPrefix (-2) interestName in
      match Name_get interestName (-2), Name_get interestName (-1) with
      | Some info, Some value =>
          let signature :=
            mkSignature (blockFromValue info) (blockFromValue value) in
          Returned (trace ++ [CheckSignature signature stepCount])
      | _, _ => OutOfRange trace
      end
    else Returned trace.

(** The trace of a scan that passes over [n] rules from position [pos]
    without a match. *)
Definition noMatchEvents (pos n : nat) : list Event :=
  map (fun i => RuleMatch i false) (seq pos n).

(** The rule does not match the packet. *)
Definition unmatched {Packet} `{RuleOps Packet} (packet : Packet) (r : Rule)
  : Prop :=
  Rule_match r packet = false.

(** The events of the scan: calls of [match] and [check]. *)
Definition isScanEvent (e : Event) : bool :=
  match e with RuleMatch _ _ | RuleCheck _ _ _ => true | _ => false end.

Definition isCheckSignature (e : Event) : bool :=
  match e with CheckSignature _ _ => true | _ => false end.

(** [checkSignature] is called somewhere in the trace. *)
Definition invokesCheckSignature (t : list Event) : bool :=
  existsb isCheckSignature t.

(** ** The grammar of a rule section, in the words of the specification *)

Definition created {A} (r : string + A) : bool :=
  match r with inr _ => true | inl _ => false end.

Definition isEntry (key : string) (e : string * ConfigSection) : bool :=
  iequals (fst e) key.

Fixpoint skipEntries (key : string) (l : list (string * ConfigSection))
  : list (string * ConfigSection) :=
  match l with
  | e :: l' => if isEntry key e then skipEntries key l' else l
  | [] => []
  end.

(** Zero or more [filter] entries, then one or more [checker] entries,
    and nothing after them. *)
Definition tailGrammar (rest : list (string * ConfigSection)) : bool :=
  let checkers := skipEntries "filter" rest in
  negb (isEnd checkers) && forallb (isEntry "checker") checkers.

(** One [id] entry, then one [for] entry whose value is [data] or
    [interest] up to case, then the filters and checkers. *)
Definition ruleGrammar (entries : list (string * ConfigSection)) : bool :=
  match entries with
  | idEntry :: forEntry :: rest =>
      isEntry "id" idEntry
      && isEntry "for" forEntry
      && (iequals (cs_data (snd forEntry)) "data"
          || iequals (cs_data (snd forEntry)) "interest")
      && tailGrammar rest
  | _ => false
  end.

(** The factory of its kind accepts the entry, if it is a [filter] or a
    [checker] entry. *)
Definition accepted (filename : string) (e : string * ConfigSection) : bool :=
  if isEntry "filter" e then created (FilterFactory_create (snd e))
  else if isEntry "checker" e
  then created (CheckerFactory_create (snd e) filename)
  else true.

(** The factories accept every [filter] and [checker] entry that follows
    the first two entries. *)
Definition factoriesAccept (filename : string)
    (entries : list (string * ConfigSection)) : bool :=
  forallb (accepted filename) (drop 2 entries).

(** The second validator is the first with rules appended and anchors
    added or replaced. *)
Definition extends (this this' : ValidatorConfig) : Prop :=
  m_face this' = m_face this
  /\ m_stepLimit this' = m_stepLimit this
  /\ m_certificateCache this' = m_certificateCache this
  /\ m_dataRules this `prefix_of` m_dataRules this'
  /\ m_interestRules this `prefix_of` m_interestRules this'
  /\ dom (m_anchors this) ⊆ dom (m_anchors this').

(** A malformed section of the root tree: a rule section that deviates
    from the grammar (no leading id, no checker, trailing fields, ...) or a
    section that is neither a rule nor a trust anchor. *)
Definition malformedSection (sectionName : string) (section : ConfigSection)
  : bool :=
  if iequals sectionName "rule" then negb (ruleGrammar (cs_children section))
  else negb (iequals sectionName "trust-anchor").

End WithCollaborators.

(** ** A sample implementation of the collaborators

    Used to run the definitions above on concrete inputs. *)
Module Sample.

Definition anchorCert : IdentityCertificate :=
  mkCert ["a"; "b"; "KEY"; "c"] "public key bits".

Fixpoint isPrefixOf (p n : Name) : bool :=
  match p, n with
  | [], _ => true
  | c :: p', d :: n' => String.eqb c d && isPrefixOf p' n'
  | _ :: _, [] => false
  end.

(** A sample filter is a name and accepts the names it is a prefix of; a
    sample checker is a fixed verdict with the callbacks it invokes. *)
#[export] Instance collaborators : Collaborators := {|
  Filter := Name;
  Checker := Z * list Callback;
  FilterFactory_create s :=
    match cs_children s with
    | [] => inl "Expect <filter.type>!"
    | l => inr (map (fun e => cs_data (snd e)) l)
    end;
  CheckerFactory_create s _ :=
    if String.eqb (cs_data s) "continue" then inr (0, [])
    else if String.eqb (cs_data s) "pass" then inr (1, [Validated])
    else if String.eqb (cs_data s) "fail"
    then inr (-1, [ValidationFailed "rejected"])
    else inl "Unsupported checker";
  io_load_file p :=
    if String.eqb p "/etc/ndn/anchor.cert" then Some anchorCert else None;
  io_load_stream ss :=
    if String.eqb ss "QW5jaG9y" then Some anchorCert else None;
  parent_path _ := "/etc/ndn";
  absolute file base := base +:+ "/" +:+ file
|}.

(** Modelled from the spec: [Rule::match] and [Rule::check] are defined
    outside this file.  A rule matches when every filter accepts the name;
    its checkers run in order and evaluation stops at the first one that
    fails or passes. *)
Definition matchName (r : Rule) (n : Name) : bool :=
  forallb (fun f : Name => isPrefixOf f n) (m_filters r).

Fixpoint runCheckers (cs : list (Z * list Callback)) : Z * list Callback :=
  match cs with
  | [] => (0, [])
  | (verdict, invoked) :: cs' =>
      if verdict =? 0 then runCheckers cs' else (verdict, invoked)
  end.

#[export] Instance dataRules : RuleOps Data := {|
  Rule_match r d := matchName r (Data_getName d);
  Rule_check r _ := runCheckers (m_checkers r)
|}.

#[export] Instance interestRules : RuleOps Interest := {|
  Rule_match r i := matchName r (Interest_getName i);
  Rule_check r _ := runCheckers (m_checkers r)
|}.

Definition rule (id : string) (filters : list Name)
    (checkers : list (Z * list Callback)) : Rule :=
  mkRule id filters checkers.

Definition validator (stepLimit : Z) (dataRules interestRules : list Rule)
  : ValidatorConfig :=
  mkValidator (Some (mkFace 7)) stepLimit (Some (CertificateCacheTtl 7))
              dataRules interestRules ∅.

Definition entry (key value : string) : string * ConfigSection :=
  (key, Node value []).

Definition filterEntry (prefix : list string) : string * ConfigSection :=
  ("filter", Node EmptyString (map (entry "name") prefix)).

(** rule { id r1  for data  filter { name a }  checker continue } *)
Definition goodRule : string * ConfigSection :=
  ("rule", Node EmptyString
     [entry "id" "r1"; entry "for" "data"; filterEntry ["a"];
      entry "checker" "continue"]).

(** rule { for data  id r1  checker continue } *)
Definition ruleWithoutLeadingId : ConfigSection :=
  Node EmptyString
    [entry "for" "data"; entry "id" "r1"; entry "checker" "continue"].

(** rule { id r2  for interest  filter { name a } } *)
Definition ruleWithoutChecker : ConfigSection :=
  Node EmptyString [entry "id" "r2"; entry "for" "interest"; filterEntry ["a"]].

(** trust-anchor { type file  file-name anchor.cert } *)
Definition fileAnchor : ConfigSection :=
  Node EmptyString [entry "type" "file"; entry "file-name" "anchor.cert"].

Definition someSignature : Signature :=
  mkSignature (blockFromValue "info") (blockFromValue "value").

(** Three rules: [r0] filters on /b, [r1] on /a, [r2] has no filter. *)
Definition r0 : Rule := rule "r0" [["b"]] [(1, [Validated])].
Definition r1 : Rule := rule "r1" [["a"]] [(0, [])].
Definition r2 : Rule := rule "r2" [] [(-1, [ValidationFailed "rejected"])].

Definition packet : Data := mkData ["a"; "x"] someSignature.
Definition signed : Interest := mkInterest ["a"; "info"; "value"].
Definition short : Interest := mkInterest ["a"].

Definition confFile : string := "/etc/ndn/validator.conf".

(** A section that is neither a rule nor a trust anchor. *)
Definition bogusSection : string * ConfigSection :=
  ("bogus", Node EmptyString []).

(** A well-formed rule followed by a section of an unknown kind. *)
Definition brokenTree : ConfigSection :=
  Node EmptyString [goodRule; bogusSection].

(** The rule that [goodRule] declares. *)
Definition goodRuleLoaded : Rule := rule "r1" [["a"]] [(0, [])].

End Sample.

(** ** Loading from a file, a string or a stream *)

(** [boost::property_tree::info_parser_error]: what is wrong, and on which
    line of the input. *)
Record info_parser_error := mkParserError {
  error_message : string;
  error_line : N
}.

(** The input side of [load]: opening a file for reading gives the text
    behind it, or nothing when the stream is not good or not open;
    [read_info] parses a text into a tree or throws a parser error. *)
Class Input := {
  ifstream_open : string -> option string;
  read_info : string -> info_parser_error + ConfigSection
}.

Section WithInput.
Context `{Collaborators} `{Input}.

(** [ValidatorConfig::load(std::istream&, const std::string&)] *)
Definition load_stream (input : string) (filename : string) : Action unit :=
  match read_info input with
  | inl error =>
      throw ("Failed to parse configuration file" +:+ " " +:+ filename
             +:+ " " +:+ error_message error
             +:+ " line " +:+ pretty (error_line error))
  | inr tree => load tree filename
  end.

(** [ValidatorConfig::load(const std::string& input, const std::string&)] *)
Definition load_string (input : string) (filename : string) : Action unit :=
  let inputStream := input in
  load_stream inputStream filename.

(** [ValidatorConfig::load(const std::string& filename)] *)
Definition load_file (filename : string) : Action unit :=
  match ifstream_open filename with
  | None => throw ("Failed to read configuration file: " +:+ filename)
  | Some inputFile => load_stream inputFile filename
  end.

(** ** What a section declares *)

(** The entries at the head of the list that carry the key. *)
Fixpoint takeEntries (key : string) (l : list (string * ConfigSection))
  : list (string * ConfigSection) :=
  match l with
  | e :: l' => if isEntry key e then e :: takeEntries key l' else []
  | [] => []
  end.

(** The value of the first entry of a rule section: its id. *)
Definition ruleSectionId (section : ConfigSection) : string :=
  match cs_children section with
  | (_, idNode) :: _ => cs_data idNode
  | [] => EmptyString
  end.

(** The value of the second entry of a rule section is [data]. *)
Definition ruleSectionForData (section : ConfigSection) : bool :=
  match cs_children section with
  | _ :: (_, forNode) :: _ => iequals (cs_data forNode) "data"
  | _ => false
  end.

(** A section of the root tree that is a rule, follows the grammar, and
    holds filters and checkers the factories accept. *)
Definition wellFormedRuleSection (filename : string)
    (s : string * ConfigSection) : bool :=
  iequals (fst s) "rule"
  && ruleGrammar (cs_children (snd s))
  && factoriesAccept filename (cs_children (snd s)).

(** The certificate a trust anchor section designates: two entries, the
    type and, by the type, a file name or an encoded certificate. *)
Definition anchorCertificate (filename : string) (section : ConfigSection)
  : option IdentityCertificate :=
  match cs_children section with
  | [(typeKey, typeNode); (sourceKey, sourceNode)] =>
      if negb (iequals typeKey "type") then None
      else if iequals (cs_data typeNode) "file" then
        if iequals sourceKey "file-name"
        then io_load_file (absolute (cs_data sourceNode)
                                    (parent_path filename))
        else None
      else if iequals (cs_data typeNode) "base64" then
        if iequals sourceKey "base64-string"
        then io_load_stream (cs_data sourceNode)
        else None
      else None
  | _ => None
  end.

(** Two entry lists that differ in the case of their keys only. *)
Definition sameUpToKeyCase (l l' : list (string * ConfigSection)) : Prop :=
  Forall2 (fun e e' => iequals (fst e) (fst e') = true /\ snd e = snd e') l l'.

(** What [checkPolicy] itself does to end a validation: it invokes the
    failure callback or hands the packet to [checkSignature]. *)
Definition isOwnTerminal (e : Event) : bool :=
  match e with
  | OnValidationFailed _ | CheckSignature _ _ => true
  | _ => false
  end.

(** Every rule of the validator has at least one checker. *)
Definition rulesHaveCheckers (this : ValidatorConfig) : Prop :=
  Forall (fun r => m_checkers r ≠ []) (m_dataRules this)
  /\ Forall (fun r => m_checkers r ≠ []) (m_interestRules this).

(** Every trust anchor has a non-empty name and is stored under that name
    without its last component. *)
Definition anchorsKeyedByName (this : ValidatorConfig) : Prop :=
  forall key idCert,
    m_anchors this !! key = Some idCert ->
    1 <= Name_size (Cert_getName idCert)
    /\ key = getPrefix (-1) (Cert_getName idCert).

End WithInput.

(** A sample input side: one file, whose text is the name of the tree it
    parses to; any other text fails to parse on line 3. *)
Module SampleInput.
Import Sample.

Definition twoRules : ConfigSection :=
  Node EmptyString
    [goodRule;
     ("rule", Node EmptyString
        [entry "ID" "r3"; entry "For" "Interest"; entry "checker" "pass"])].

#[export] Instance input : Input := {|
  ifstream_open p :=
    if String.eqb p confFile then Some "two rules" else None;
  read_info text :=
    if String.eqb text "two rules" then inr twoRules
    else inl (mkParserError "unexpected end of file" 3)
|}.

(** rule { ID r1  FOR data  Filter { name a }  CHECKER continue } *)
Definition goodRuleUpperCase : ConfigSection :=
  Node "ignored"
    [("ID", Node "r1" []); ("FOR", Node "data" []);
     ("Filter", Node EmptyString [entry "name" "a"]);
     ("CHECKER", Node "continue" [])].

(** A tree with one trust anchor. *)
Definition anchorTree : ConfigSection :=
  Node EmptyString [("trust-anchor", fileAnchor)].

Definition anchorLoaded : ValidatorConfig :=
  set_anchor ["a"; "b"; "KEY"] anchorCert (validator 3 [] []).

End SampleInput.

(** * Properties *)

(** ** The scan of a rule list *)
Section Scan.
Context `{Collaborators} {Packet : Type} `{!RuleOps Packet}.
Implicit Types (rules pre post : list Rule) (packet : Packet).

Lemma noMatchEvents_S pos n :
  noMatchEvents pos (S n) = RuleMatch pos false :: noMatchEvents (S pos) n.
Proof. reflexivity. Qed.

Lemma elem_of_noMatchEvents e pos n :
  e ∈ noMatchEvents pos n ->
  exists i, e = RuleMatch i false /\ (pos <= i < pos + n)%nat.
Proof.
  unfold noMatchEvents. intros [i [-> Hi]]%list_elem_of_fmap.
  apply elem_of_seq in Hi. eauto.
Qed.

Lemma scanRules_unmatched pos rules packet :
  Forall (unmatched packet) rules ->
  scanRules pos rules packet =
    (false, -1, noMatchEvents pos (List.length rules)).
Proof.
  intros Hall. revert pos.
  induction Hall as [|r rules Hr _ IH]; intros pos;
    cbn [scanRules List.length]; [done|].
  by rewrite Hr, IH, noMatchEvents_S.
Qed.

Lemma scanRules_first_match pos pre r post packet :
  Forall (unmatched packet) pre ->
  Rule_match r packet = true ->
  scanRules pos (pre ++ r :: post) packet =
    (true, (Rule_check r packet).1,
     noMatchEvents pos (List.length pre)
       ++ [RuleMatch (pos + List.length pre) true;
           RuleCheck (pos + List.length pre)
                     (Rule_check r packet).1 (Rule_check r packet).2]).
Proof.
  intros Hpre Hr. revert pos.
  induction Hpre as [|q pre Hq _ IH]; intros pos;
    cbn [scanRules List.length app].
  - rewrite Hr. destruct (Rule_check r packet) as [c cbs]; simpl.
    by rewrite Nat.add_0_r.
  - rewrite Hq, IH, noMatchEvents_S, Nat.add_succ_r. reflexivity.
Qed.

(** Every rule list splits at its first matching rule, if it has one. *)
Lemma first_match_split rules packet :
  Forall (unmatched packet) rules \/
  exists pre r post,
    rules = pre ++ r :: post /\ Forall (unmatched packet) pre
    /\ Rule_match r packet = true.
Proof.
  induction rules as [|q rules IH]; [by left|].
  destruct (Rule_match q packet) eqn:Hq.
  - right. exists [], q, rules. by repeat split.
  - destruct IH as [Hall | (pre & r & post & -> & Hpre & Hr)].
    + left. by constructor.
    + right. exists (q :: pre), r, post. repeat split; [|done]. by constructor.
Qed.

Lemma scanRules_events pos rules packet :
  Forall (fun e => isScanEvent e = true) (scanRules pos rules packet).2.
Proof.
  revert pos. induction rules as [|q rules IH]; intros pos; simpl; [done|].
  destruct (Rule_match q packet).
  - destruct (Rule_check q packet). simpl. by repeat constructor.
  - specialize (IH (S pos)).
    destruct (scanRules (S pos) rules packet) as [[m c] t]. simpl in *.
    by constructor.
Qed.

End Scan.

(** ** Names *)

Lemma Name_get_from_end (n : Name) (k : Z) :
  0 < k ->
  Name_get n (- k) =
    if k <=? Name_size n then n !! Z.to_nat (Name_size n - k) else None.
Proof.
  intros Hk. unfold Name_get.
  destruct (0 <=? - k) eqn:E; [lia|].
  replace (Name_size n + - k) with (Name_size n - k) by lia.
  destruct (k <=? Name_size n) eqn:E1.
  - replace (0 <=? Name_size n - k) with true by lia.
    by replace (Name_size n - k <? Name_size n) with true by lia.
  - by replace (0 <=? Name_size n - k) with false by lia.
Qed.

Lemma Name_get_from_end_is_Some (n : Name) (k : Z) :
  0 < k -> is_Some (Name_get n (- k)) <-> k <= Name_size n.
Proof.
  intros Hk. rewrite Name_get_from_end by done.
  destruct (k <=? Name_size n) eqn:E.
  - split; [lia|]. intros _. apply lookup_lt_is_Some.
    unfold Name_size in *. lia.
  - split; [by intros [? ?]|lia].
Qed.

(** ** checkPolicy *)
Section Policy.
Context `{Collaborators} `{!RuleOps Data} `{!RuleOps Interest}.
Implicit Types (this : ValidatorConfig) (data : Data) (interest : Interest).
Implicit Types (stepCount : Z) (pre post : list Rule) (r : Rule).

(** Split the hypotheses that place an event in a trace built from
    [noMatchEvents], [++] and explicit lists. *)
Ltac in_trace :=
  repeat match goal with
    | H : _ ∈ _ ++ _ |- _ => apply elem_of_app in H; destruct H as [H|H]
    | H : _ ∈ _ :: _ |- _ => apply elem_of_cons in H; destruct H as [H|H]
    | H : _ ∈ [] |- _ => by apply elem_of_nil in H
    | H : _ ∈ noMatchEvents _ _ |- _ =>
        apply elem_of_noMatchEvents in H; destruct H as (? & ? & ?)
    | H : _ ∈ (if ?b then _ else _) |- _ => destruct b eqn:?
    end;
  simplify_eq.

Lemma checkPolicy_Data_unmatched this data stepCount :
  m_stepLimit this ≠ stepCount ->
  Forall (unmatched data) (m_dataRules this) ->
  checkPolicy_Data this data stepCount =
    Returned (noMatchEvents 0 (List.length (m_dataRules this))
                ++ [OnValidationFailed noRuleMatched]).
Proof.
  intros Hn Hall. unfold checkPolicy_Data.
  destruct (m_stepLimit this =? stepCount) eqn:E; [lia|].
  by rewrite (scanRules_unmatched _ _ _ Hall).
Qed.

Lemma checkPolicy_Data_matched this data stepCount pre r post :
  m_stepLimit this ≠ stepCount ->
  m_dataRules this = pre ++ r :: post ->
  Forall (unmatched data) pre ->
  Rule_match r data = true ->
  checkPolicy_Data this data stepCount =
    Returned (noMatchEvents 0 (List.length pre)
                ++ [RuleMatch (List.length pre) true;
                    RuleCheck (List.length pre)
                              (Rule_check r data).1 (Rule_check r data).2]
                ++ (if (Rule_check r data).1 =? 0
                    then [CheckSignature (Data_getSignature data) stepCount]
                    else [])).
Proof.
  intros Hn Hrules Hpre Hr. unfold checkPolicy_Data.
  destruct (m_stepLimit this =? stepCount) eqn:E; [lia|].
  rewrite Hrules, (scanRules_first_match _ _ _ _ _ Hpre Hr).
  cbn [negb]. destruct ((Rule_check r data).1 =? 0).
  - by rewrite <- app_assoc.
  - done.
Qed.

Lemma checkPolicy_Interest_unmatched this interest stepCount :
  m_stepLimit this ≠ stepCount ->
  Forall (unmatched interest) (m_interestRules this) ->
  checkPolicy_Interest this interest stepCount =
    Returned (noMatchEvents 0 (List.length (m_interestRules this))
                ++ [OnValidationFailed noRuleMatched]).
Proof.
  intros Hn Hall. unfold checkPolicy_Interest.
  destruct (m_stepLimit this =? stepCount) eqn:E; [lia|].
  by rewrite (scanRules_unmatched _ _ _ Hall).
Qed.

Lemma checkPolicy_Interest_matched this interest stepCount pre r post :
  m_stepLimit this ≠ stepCount ->
  m_interestRules this = pre ++ r :: post ->
  Forall (unmatched interest) pre ->
  Rule_match r interest = true ->
  let scanned :=
    noMatchEvents 0 (List.length pre)
      ++ [RuleMatch (List.length pre) true;
          RuleCheck (List.length pre)
                    (Rule_check r interest).1 (Rule_check r interest).2] in
  checkPolicy_Interest this interest stepCount =
    if (Rule_check r interest).1 =? 0 then
      match Name_get (Interest_getName interest) (-2),
            Name_get (Interest_getName interest) (-1) with
      | Some info, Some value =>
          Returned (scanned ++ [CheckSignature
                                  (mkSignature (blockFromValue info)
                                               (blockFromValue value))
                                  stepCount])
      | _, _ => OutOfRange scanned
      end
    else Returned scanned.
Proof.
  intros Hn Hrules Hpre Hr. unfold checkPolicy_Interest.
  destruct (m_stepLimit this =? stepCount) eqn:E; [lia|].
  by rewrite Hrules, (scanRules_first_match _ _ _ _ _ Hpre Hr).
Qed.

(** The trace of a run that passes the step-limit guard starts with the
    trace of the scan and goes on with events that are not the scan's. *)
Lemma checkPolicy_Data_trace this data stepCount :
  m_stepLimit this ≠ stepCount ->
  exists tail,
    traceOf (checkPolicy_Data this data stepCount) =
      (scanRules 0 (m_dataRules this) data).2 ++ tail
    /\ (tail = [] \/ tail = [OnValidationFailed noRuleMatched]
        \/ tail = [CheckSignature (Data_getSignature data) stepCount]).
Proof.
  intros Hn. unfold checkPolicy_Data.
  destruct (m_stepLimit this =? stepCount) eqn:E; [lia|].
  destruct (scanRules 0 (m_dataRules this) data) as [[m c] t]. simpl.
  destruct m; simpl; [destruct (c =? 0)|]; simpl; eauto.
  exists []. by rewrite app_nil_r; auto.
Qed.

Lemma checkPolicy_Interest_trace this interest stepCount :
  m_stepLimit this ≠ stepCount ->
  exists tail,
    traceOf (checkPolicy_Interest this interest stepCount) =
      (scanRules 0 (m_interestRules this) interest).2 ++ tail
    /\ (tail = [] \/ tail = [OnValidationFailed noRuleMatched]
        \/ exists signature, tail = [CheckSignature signature stepCount]).
Proof.
  intros Hn. unfold checkPolicy_Interest.
  destruct (m_stepLimit this =? stepCount) eqn:E; [lia|].
  destruct (scanRules 0 (m_interestRules this) interest) as [[m c] t]. simpl.
  destruct m; simpl; [destruct (c =? 0)|]; simpl; eauto.
  - destruct (Name_get (Interest_getName interest) (-2)) as [info|],
      (Name_get (Interest_getName interest) (-1)) as [value|]; simpl;
      [eexists; split; [reflexivity|]; right; right; eauto | ..];
      exists []; by rewrite app_nil_r; auto.
  - exists []. by rewrite app_nil_r; auto.
Qed.

Lemma not_scan_event_not_in e (t : list Event) :
  isScanEvent e = false -> Forall (fun e => isScanEvent e = true) t -> e ∉ t.
Proof.
  intros He Ht Hin. rewrite Forall_forall in Ht.
  specialize (Ht _ Hin). congruence.
Qed.

Lemma invokesCheckSignature_true (t : list Event) :
  invokesCheckSignature t = true <->
  exists signature n, CheckSignature signature n ∈ t.
Proof.
  unfold invokesCheckSignature. rewrite existsb_exists. split.
  - intros ([] & Hin & He); try discriminate.
    apply list_elem_of_In in Hin. eauto.
  - intros (sig & n & Hin). exists (CheckSignature sig n).
    by rewrite <- list_elem_of_In.
Qed.

(** C1. When [checkPolicy] is called with a step counter equal to the
    configured step limit, for a Data as for an Interest, the run consists
    of one invocation of the failure callback with the reason
    "Maximum steps of validation reached": no rule's [match] or [check] is
    called, so no filter and no checker is evaluated. *)
Theorem checkPolicy_step_limit_reached this data interest :
  checkPolicy_Data this data (m_stepLimit this) =
    Returned [OnValidationFailed maxStepsReached]
  /\ checkPolicy_Interest this interest (m_stepLimit this) =
       Returned [OnValidationFailed maxStepsReached].
Proof.
  unfold checkPolicy_Data, checkPolicy_Interest.
  by rewrite Z.eqb_refl.
Qed.

(** C4. When the rule list splits into rules that do not match, a first
    rule [r] that matches, and any rules after it (matching or not), the
    only [check] that runs is that of [r], every [match] that runs is at
    or before the position of [r], and, unless the step limit stops the
    run, the [check] of [r] does run. *)
Theorem checkPolicy_first_match_wins :
  (forall this data stepCount pre r post,
      m_dataRules this = pre ++ r :: post ->
      Forall (unmatched data) pre ->
      Rule_match r data = true ->
      let t := traceOf (checkPolicy_Data this data stepCount) in
      (forall pos c invoked,
          RuleCheck pos c invoked ∈ t ->
          pos = List.length pre /\ (c, invoked) = Rule_check r data)
      /\ (forall pos b, RuleMatch pos b ∈ t -> (pos <= List.length pre)%nat)
      /\ (m_stepLimit this ≠ stepCount ->
          RuleCheck (List.length pre)
                    (Rule_check r data).1 (Rule_check r data).2 ∈ t))
  /\ (forall this interest stepCount pre r post,
      m_interestRules this = pre ++ r :: post ->
      Forall (unmatched interest) pre ->
      Rule_match r interest = true ->
      let t := traceOf (checkPolicy_Interest this interest stepCount) in
      (forall pos c invoked,
          RuleCheck pos c invoked ∈ t ->
          pos = List.length pre /\ (c, invoked) = Rule_check r interest)
      /\ (forall pos b, RuleMatch pos b ∈ t -> (pos <= List.length pre)%nat)
      /\ (m_stepLimit this ≠ stepCount ->
          RuleCheck (List.length pre)
                    (Rule_check r interest).1 (Rule_check r interest).2 ∈ t)).
Proof.
  split.
  - intros this data stepCount pre r post Hrules Hpre Hr t. subst t.
    destruct (decide (m_stepLimit this = stepCount)) as [<-|Hn].
    { unfold checkPolicy_Data. rewrite Z.eqb_refl. simpl.
      split; [|split]; [intros ??? Hin; in_trace | intros ?? Hin; in_trace
                       | done]. }
    rewrite (checkPolicy_Data_matched _ _ _ _ _ _ Hn Hrules Hpre Hr). simpl.
    destruct (Rule_check r data) as [c cbs]; simpl.
    split; [|split].
    + intros ??? Hin; by in_trace.
    + intros ?? Hin; in_trace; lia.
    + intros _. apply elem_of_app; right. repeat constructor.
  - intros this interest stepCount pre r post Hrules Hpre Hr t. subst t.
    destruct (decide (m_stepLimit this = stepCount)) as [<-|Hn].
    { unfold checkPolicy_Interest. rewrite Z.eqb_refl. simpl.
      split; [|split]; [intros ??? Hin; in_trace | intros ?? Hin; in_trace
                       | done]. }
    rewrite (checkPolicy_Interest_matched _ _ _ _ _ _ Hn Hrules Hpre Hr).
    destruct (Rule_check r interest) as [c cbs]; simpl.
    destruct (c =? 0),
      (Name_get (Interest_getName interest) (-2)),
      (Name_get (Interest_getName interest) (-1)); simpl;
      (split; [|split];
       [ intros ??? Hin; by in_trace
       | intros ?? Hin; in_trace; lia
       | intros _; rewrite ?elem_of_app, !elem_of_cons; auto 6 ]).
Qed.

(** C5. When the step counter is below the limit and no rule of the
    packet's kind matches, the run calls [match] on each rule in turn,
    then invokes the failure callback with "No rule matched!" and returns:
    no [check] is called and [checkSignature] is not reached. *)
Theorem checkPolicy_no_rule_matched :
  (forall this data stepCount,
      stepCount < m_stepLimit this ->
      Forall (unmatched data) (m_dataRules this) ->
      let t := noMatchEvents 0 (List.length (m_dataRules this))
                 ++ [OnValidationFailed noRuleMatched] in
      checkPolicy_Data this data stepCount = Returned t
      /\ (forall pos c invoked, RuleCheck pos c invoked ∉ t)
      /\ invokesCheckSignature t = false)
  /\ (forall this interest stepCount,
      stepCount < m_stepLimit this ->
      Forall (unmatched interest) (m_interestRules this) ->
      let t := noMatchEvents 0 (List.length (m_interestRules this))
                 ++ [OnValidationFailed noRuleMatched] in
      checkPolicy_Interest this interest stepCount = Returned t
      /\ (forall pos c invoked, RuleCheck pos c invoked ∉ t)
      /\ invokesCheckSignature t = false).
Proof.
  assert (Hshape : forall n,
    let t := noMatchEvents 0 n ++ [OnValidationFailed noRuleMatched] in
    (forall pos c invoked, RuleCheck pos c invoked ∉ t)
    /\ invokesCheckSignature t = false).
  { intros n t. subst t. split.
    - intros ??? Hin. in_trace.
    - apply not_true_is_false. rewrite invokesCheckSignature_true.
      intros (? & ? & Hin). in_trace. }
  split.
  - intros this data stepCount Hlt Hall t. subst t.
    split; [|apply Hshape].
    apply checkPolicy_Data_unmatched; [lia|done].
  - intros this interest stepCount Hlt Hall t. subst t.
    split; [|apply Hshape].
    apply checkPolicy_Interest_unmatched; [lia|done].
Qed.


(** C8. With a step counter strictly above the configured limit the
    guard does not fire: [checkPolicy] itself does not invoke the failure
    callback with "Maximum steps of validation reached", and the trace of
    the run starts with the scan of the rule list.  In particular, under a
    negative limit no counter from zero upwards triggers the bound. *)
Theorem checkPolicy_beyond_step_limit :
  (forall this data stepCount,
      m_stepLimit this < stepCount ->
      let t := traceOf (checkPolicy_Data this data stepCount) in
      ((OnValidationFailed maxStepsReached ∉ t)
       /\ exists tail, t = (scanRules 0 (m_dataRules this) data).2 ++ tail))
  /\ (forall this interest stepCount,
      m_stepLimit this < stepCount ->
      let t := traceOf (checkPolicy_Interest this interest stepCount) in
      ((OnValidationFailed maxStepsReached ∉ t)
       /\ exists tail,
           t = (scanRules 0 (m_interestRules this) interest).2 ++ tail))
  /\ (forall this data interest stepCount,
      m_stepLimit this < 0 -> 0 <= stepCount ->
      (OnValidationFailed maxStepsReached
         ∉ traceOf (checkPolicy_Data this data stepCount))
      /\ (OnValidationFailed maxStepsReached
            ∉ traceOf (checkPolicy_Interest this interest stepCount))).
Proof.
  assert (HD : forall this data stepCount,
             m_stepLimit this ≠ stepCount ->
             let t := traceOf (checkPolicy_Data this data stepCount) in
             ((OnValidationFailed maxStepsReached ∉ t)
              /\ exists tail,
                  t = (scanRules 0 (m_dataRules this) data).2 ++ tail)).
  { intros this data stepCount Hn t. subst t.
    destruct (checkPolicy_Data_trace this data stepCount Hn)
      as (tail & -> & Htail).
    split; [|by eauto]. intros [Hin|Hin]%elem_of_app.
    - by eapply not_scan_event_not_in, Hin; [|apply scanRules_events].
    - destruct Htail as [-> | [-> | ->]]; in_trace. }
  assert (HI : forall this interest stepCount,
             m_stepLimit this ≠ stepCount ->
             let t := traceOf (checkPolicy_Interest this interest stepCount) in
             ((OnValidationFailed maxStepsReached ∉ t)
              /\ exists tail,
                  t = (scanRules 0 (m_interestRules this) interest).2 ++ tail)).
  { intros this interest stepCount Hn t. subst t.
    destruct (checkPolicy_Interest_trace this interest stepCount Hn)
      as (tail & -> & Htail).
    split; [|by eauto]. intros [Hin|Hin]%elem_of_app.
    - by eapply not_scan_event_not_in, Hin; [|apply scanRules_events].
    - destruct Htail as [-> | [-> | [sig ->]]]; in_trace. }
  split; [|split].
  - intros this data stepCount Hlt. apply HD. lia.
  - intros this interest stepCount Hlt. apply HI. lia.
  - intros this data interest stepCount Hneg Hpos. split.
    + apply HD. lia.
    + apply HI. lia.
Qed.

(** C9. The Interest overload of [checkPolicy] indexes the name outside
    its range exactly when the step limit is not reached, a rule matched,
    the [check] of that rule returned 0 and the name has fewer than two
    components: nothing in the function guards the indexing, and a name
    of at least two components keeps it in range. *)
Theorem checkPolicy_Interest_out_of_range_iff this interest stepCount :
  (exists t, checkPolicy_Interest this interest stepCount = OutOfRange t)
  <->
  m_stepLimit this ≠ stepCount
  /\ (exists t, scanRules 0 (m_interestRules this) interest = (true, 0, t))
  /\ (List.length (Interest_getName interest) < 2)%nat.
Proof.
  unfold checkPolicy_Interest.
  pose proof (Name_get_from_end_is_Some (Interest_getName interest) 2 eq_refl)
    as H2.
  pose proof (Name_get_from_end_is_Some (Interest_getName interest) 1 eq_refl)
    as H1.
  change (- (2)) with (-2) in H2. change (- (1)) with (-1) in H1.
  unfold Name_size in *.
  destruct (m_stepLimit this =? stepCount) eqn:E.
  { split; [by intros [? ?]|]. intros [? _]. lia. }
  destruct (scanRules 0 (m_interestRules this) interest) as [[m c] t].
  destruct m; simpl.
  2:{ split; [by intros [? ?]|]. by intros (_ & [? ?] & _). }
  destruct (c =? 0) eqn:Hc.
  2:{ split; [by intros [? ?]|]. intros (_ & [? ?] & _). simplify_eq. }
  apply Z.eqb_eq in Hc as ->.
  destruct (Name_get (Interest_getName interest) (-2)) as [info|] eqn:Hi.
  - assert (2 <= Z.of_nat (List.length (Interest_getName interest)))
      by (apply H2; eauto).
    destruct (Name_get (Interest_getName interest) (-1)) as [value|] eqn:Hv.
    + split; [by intros [? ?]|]. intros (_ & _ & ?). lia.
    + assert (¬ 1 <= Z.of_nat (List.length (Interest_getName interest)))
        by (rewrite <- H1; by intros [? ?]).
      lia.
  - assert (¬ 2 <= Z.of_nat (List.length (Interest_getName interest)))
      by (rewrite <- H2; by intros [? ?]).
    split; [|by eauto]. intros _. split; [lia|]. split; [by eauto|lia].
Qed.

End Policy.

(** ** checkPolicy on sample inputs *)
Import Sample.

Lemma checkPolicy_first_match_wins_witness :
  Rule_match r1 packet = true /\ Rule_match r2 packet = true
  /\ forall pos c invoked,
      RuleCheck pos c invoked
        ∈ traceOf (checkPolicy_Data (validator 3 [r0; r1; r2] []) packet 0) ->
      pos = 1%nat /\ (c, invoked) = (0, []).
Proof.
  split; [reflexivity|]. split; [reflexivity|].
  refine (proj1 (proj1 checkPolicy_first_match_wins
                   (validator 3 [r0; r1; r2] []) packet 0 [r0] r1 [r2]
                   eq_refl _ eq_refl)).
  repeat constructor.
Defined.

Lemma checkPolicy_no_rule_matched_witness :
  checkPolicy_Data (validator 3 [r0] []) packet 0 =
    Returned [RuleMatch 0 false; OnValidationFailed noRuleMatched].
Proof.
  refine (proj1 (proj1 checkPolicy_no_rule_matched
                   (validator 3 [r0] []) packet 0 _ _)).
  - reflexivity.
  - repeat constructor.
Defined.



Lemma checkPolicy_beyond_step_limit_witness :
  OnValidationFailed maxStepsReached
    ∉ traceOf (checkPolicy_Data (validator 3 [r0; r1; r2] []) packet 4).
Proof.
  refine (proj1 (proj1 checkPolicy_beyond_step_limit
                   (validator 3 [r0; r1; r2] []) packet 4 _)).
  reflexivity.
Defined.

Lemma checkPolicy_Interest_out_of_range_iff_witness :
  exists t, checkPolicy_Interest (validator 3 [] [r1]) short 0 = OutOfRange t.
Proof.
  refine (proj2 (checkPolicy_Interest_out_of_range_iff
                   (validator 3 [] [r1]) short 0) _).
  split; [discriminate|]. split; [eexists; reflexivity|]. simpl. lia.
Defined.

(** ** Messages and keys *)

Lemma prefix_append (t b : string) : String.prefix t (t +:+ b) = true.
Proof.
  induction t as [|c t IH]; simpl; [by destruct b|].
  by destruct (ascii_dec c c).
Qed.

Lemma prefix_refl (t : string) : String.prefix t t = true.
Proof.
  induction t as [|c t IH]; simpl; [done|]. by destruct (ascii_dec c c).
Qed.

Lemma isInfix_prefix (t s : string) :
  String.prefix t s = true -> isInfix t s = true.
Proof. intros Hp. destruct s; cbn [isInfix]; by rewrite Hp. Qed.

Lemma isInfix_append_l (t a s : string) :
  isInfix t s = true -> isInfix t (a +:+ s) = true.
Proof.
  intros Hs. induction a as [|c a IH]; [done|].
  change ((if String.prefix t (String c (a +:+ s)) then true
           else isInfix t (a +:+ s)) = true).
  rewrite IH. by destruct (String.prefix t (String c (a +:+ s))).
Qed.

(** The text [t] occurs in every message built as [a +:+ t +:+ b]. *)
Lemma isInfix_middle (t a b : string) : isInfix t (a +:+ t +:+ b) = true.
Proof. apply isInfix_append_l, isInfix_prefix, prefix_append. Qed.

Lemma isInfix_end (t a : string) : isInfix t (a +:+ t) = true.
Proof. apply isInfix_append_l, isInfix_prefix, prefix_refl. Qed.

(** Keys that agree up to case compare alike with any third key. *)
Lemma iequals_agree (a b c : string) :
  iequals a b = true -> iequals a c = iequals b c.
Proof.
  unfold iequals. intros Hab. apply String.eqb_eq in Hab. by rewrite Hab.
Qed.

Lemma checker_is_not_filter (e : string * ConfigSection) :
  isEntry "checker" e = true -> isEntry "filter" e = false.
Proof.
  unfold isEntry. intros Hc. by rewrite (iequals_agree _ _ _ Hc).
Qed.

(** ** Loading *)
Section Loading.
Context `{Collaborators}.
Implicit Types (this : ValidatorConfig) (filename ruleId : string).
Implicit Types (it rest : list (string * ConfigSection)).

(** Unfold the plumbing of [Action]. *)
Ltac run_action :=
  unfold mbind, Action_bind, lift, ret, throw, modify, assert in *;
  cbn beta iota in *.

Lemma accepted_skipEntries filename it :
  forallb (accepted filename) it = true ->
  forallb (accepted filename) (skipEntries "filter" it) = true.
Proof.
  induction it as [|e it IH]; [done|]. cbn [skipEntries].
  destruct (isEntry "filter" e); [|done].
  cbn [forallb]. intros [_ ?]%andb_true_iff. auto.
Qed.

(** *** The checker loop *)

Lemma getCheckers_Ok ruleId filename it (acc cs : list Checker) rest :
  getCheckers ruleId filename it acc = Ok (cs, rest) ->
  rest = []
  /\ List.length cs = (List.length acc + List.length it)%nat
  /\ forallb (isEntry "checker") it = true
  /\ forallb (accepted filename) it = true.
Proof.
  revert acc. induction it as [|[k v] it IH]; intros acc; cbn [getCheckers].
  - intros [= <- <-]. repeat split; simpl; lia.
  - destruct (iequals k "checker") eqn:Hk; [|done]. cbn [negb].
    destruct (CheckerFactory_create v filename) as [msg|c] eqn:Hc; [done|].
    intros (-> & Hlen & Hall & Hacc)%IH. rewrite length_app in Hlen.
    repeat split; [simpl in *; lia| |].
    + cbn [forallb]. unfold isEntry at 1. cbn [fst]. by rewrite Hk.
    + cbn [forallb]. unfold accepted at 1.
      rewrite checker_is_not_filter by done.
      unfold isEntry. cbn [fst snd]. by rewrite Hk, Hc.
Qed.

Lemma getCheckers_accepted ruleId filename it (acc : list Checker) :
  forallb (isEntry "checker") it = true ->
  forallb (accepted filename) it = true ->
  exists cs, getCheckers ruleId filename it acc = Ok (cs, []).
Proof.
  revert acc. induction it as [|[k v] it IH]; intros acc; cbn [getCheckers].
  - eauto.
  - cbn [forallb]. intros [Hk Hall]%andb_true_iff [Hacc Haccs]%andb_true_iff.
    unfold accepted in Hacc. rewrite checker_is_not_filter, Hk in Hacc by done.
    unfold isEntry in Hk. cbn [fst snd] in *. rewrite Hk. cbn [negb].
    destruct (CheckerFactory_create v filename); [done|]. by apply IH.
Qed.

Lemma getCheckers_Throw ruleId filename it (acc : list Checker) e :
  getCheckers ruleId filename it acc = Throw e ->
  forallb (accepted filename) it = true ->
  e = "Expect <rule.checker> in rule: " +:+ ruleId.
Proof.
  revert acc. induction it as [|[k v] it IH]; intros acc; cbn [getCheckers];
    [done|].
  destruct (iequals k "checker") eqn:Hk; cbn [negb]; [|by intros [= <-]].
  cbn [forallb]. intros Hrun [Hacc Haccs]%andb_true_iff.
  unfold accepted in Hacc.
  rewrite checker_is_not_filter in Hacc by (unfold isEntry; done).
  unfold isEntry in Hacc. cbn [fst snd] in Hacc. rewrite Hk in Hacc.
  destruct (CheckerFactory_create v filename); [done|]. eauto.
Qed.

Lemma getCheckers_no_assert ruleId filename it (acc : list Checker) :
  getCheckers ruleId filename it acc ≠ AssertFailed.
Proof.
  revert acc. induction it as [|[k v] it IH]; intros acc; cbn [getCheckers];
    [done|].
  destruct (negb (iequals k "checker")); [done|].
  destruct (CheckerFactory_create v filename); [done|]. apply IH.
Qed.

(** *** The filter loop *)

Lemma getFilters_Ok ruleId filename it (acc fs : list Filter) rest :
  getFilters ruleId it acc = Ok (fs, rest) ->
  rest = skipEntries "filter" it
  /\ (forallb (accepted filename) rest = true ->
      forallb (accepted filename) it = true).
Proof.
  revert acc. induction it as [|[k v] it IH]; intros acc;
    cbn [getFilters skipEntries].
  - by intros [= <- <-].
  - unfold isEntry at 1. cbn [fst].
    destruct (iequals k "filter") eqn:Hk; cbn [negb].
    + destruct (FilterFactory_create v) as [msg|f] eqn:Hf; [done|].
      intros [-> Hacc]%IH. split; [done|]. intros Hrest.
      cbn [forallb]. rewrite Hacc by done.
      unfold accepted, isEntry. cbn [fst snd]. by rewrite Hk, Hf.
    + destruct (iequals k "checker"); [|done]. by intros [= <- <-].
Qed.

Lemma getFilters_accepted ruleId filename it (acc : list Filter) :
  forallb (accepted filename) it = true ->
  tailGrammar it = true ->
  exists fs, getFilters ruleId it acc = Ok (fs, skipEntries "filter" it).
Proof.
  unfold tailGrammar.
  revert acc. induction it as [|[k v] it IH]; intros acc;
    cbn [getFilters skipEntries]; [done|].
  change (isEntry "filter" (k, v)) with (iequals k "filter").
  cbn [forallb]. intros [Hacc Haccs]%andb_true_iff.
  destruct (iequals k "filter") eqn:Hk; cbn [negb].
  - unfold accepted, isEntry in Hacc. cbn [fst snd] in Hacc.
    rewrite Hk in Hacc.
    destruct (FilterFactory_create v); [done|]. by apply IH.
  - cbn [isEnd negb forallb andb].
    change (isEntry "checker" (k, v)) with (iequals k "checker").
    intros [-> _]%andb_true_iff. eauto.
Qed.

Lemma getFilters_Throw ruleId filename it (acc : list Filter) e :
  getFilters ruleId it acc = Throw e ->
  forallb (accepted filename) it = true ->
  e = "Expect <rule.filter> in rule: " +:+ ruleId.
Proof.
  revert acc. induction it as [|[k v] it IH]; intros acc; cbn [getFilters];
    [done|].
  cbn [forallb]. intros Hrun [Hacc Haccs]%andb_true_iff.
  unfold accepted, isEntry in Hacc. cbn [fst snd] in Hacc.
  destruct (iequals k "filter") eqn:Hk; cbn [negb] in Hrun.
  - destruct (FilterFactory_create v); [done|]. eauto.
  - destruct (iequals k "checker"); [done|]. by injection Hrun.
Qed.

Lemma getFilters_no_assert ruleId it (acc : list Filter) :
  getFilters ruleId it acc ≠ AssertFailed.
Proof.
  revert acc. induction it as [|[k v] it IH]; intros acc; cbn [getFilters];
    [done|].
  destruct (negb (iequals k "filter")).
  - by destruct (iequals k "checker").
  - destruct (FilterFactory_create v); [done|]. apply IH.
Qed.

(** *** A rule section *)

(** The rule section behind a leading [id] and a [for] entry. *)
Lemma onConfigRule_unfold d idKey idNode forKey forNode it filename this :
  iequals idKey "id" = true ->
  iequals forKey "for" = true ->
  let ruleId := cs_data idNode in
  let usage := cs_data forNode in
  onConfigRule (Node d ((idKey, idNode) :: (forKey, forNode) :: it))
               filename this =
    if iequals usage "data" || iequals usage "interest" then
      match getFilters ruleId it [] with
      | Ok (filters, rest) =>
          match getCheckers ruleId filename rest [] with
          | Ok (checkers, rest') =>
              if negb (isEnd rest')
              then (Throw ("Expect the end of rule: " +:+ ruleId), this)
              else if (List.length checkers =? 0)%nat
              then (Throw ("No <rule.checker> is specified in rule: "
                           +:+ ruleId), this)
              else (Ok tt,
                    if iequals usage "data"
                    then push_dataRule (makeRule ruleId filters checkers) this
                    else push_interestRule
                           (makeRule ruleId filters checkers) this)
          | Throw e => (Throw e, this)
          | AssertFailed => (AssertFailed, this)
          end
      | Throw e => (Throw e, this)
      | AssertFailed => (AssertFailed, this)
      end
    else (Throw ("Unrecognized <rule.for>: " +:+ usage
                 +:+ " in rule: " +:+ ruleId), this).
Proof.
  intros Hid Hfor ruleId usage. unfold onConfigRule. cbn [cs_children].
  rewrite Hid, Hfor. cbn [negb]. fold ruleId usage. run_action.
  destruct (iequals usage "data"); cbn [orb].
  - destruct (getFilters ruleId it []) as [[fs rest]| |]; [|done..].
    destruct (getCheckers ruleId filename rest []) as [[cs rest']| |];
      [|done..].
    destruct (negb (isEnd rest')); [done|].
    by destruct (List.length cs =? 0)%nat.
  - destruct (iequals usage "interest"); [|done].
    destruct (getFilters ruleId it []) as [[fs rest]| |]; [|done..].
    destruct (getCheckers ruleId filename rest []) as [[cs rest']| |];
      [|done..].
    destruct (negb (isEnd rest')); [done|].
    by destruct (List.length cs =? 0)%nat.
Qed.

(** A section without a leading [id] entry. *)
Lemma onConfigRule_no_id section filename this :
  match cs_children section with
  | e :: _ => isEntry "id" e = false
  | [] => True
  end ->
  onConfigRule section filename this = (Throw "Expect <rule.id>!", this).
Proof.
  unfold onConfigRule. destruct (cs_children section) as [|[k v] it]; [done|].
  unfold isEntry. cbn [fst]. by intros ->.
Qed.

(** A rule section is loaded exactly when it follows the grammar and the
    factories accept its filters and checkers. *)
Lemma onConfigRule_Ok_iff section filename this :
  (exists this', onConfigRule section filename this = (Ok tt, this'))
  <->
  ruleGrammar (cs_children section)
  && factoriesAccept filename (cs_children section) = true.
Proof.
  destruct section as [d entries]. cbn [cs_children].
  destruct entries as [|[idKey idNode] entries].
  { rewrite onConfigRule_no_id by done. split; [by intros [? ?]|done]. }
  destruct (iequals idKey "id") eqn:Hid.
  2:{ rewrite onConfigRule_no_id by done. split; [by intros [? ?]|].
      unfold ruleGrammar, isEntry. cbn [fst].
      destruct entries; [done|]. by rewrite Hid. }
  destruct entries as [|[forKey forNode] it].
  { unfold onConfigRule. cbn [cs_children]. rewrite Hid. cbn [negb].
    split; [by intros [? ?]|done]. }
  destruct (iequals forKey "for") eqn:Hfor.
  2:{ unfold onConfigRule. cbn [cs_children]. rewrite Hid, Hfor. cbn [negb].
      split; [by intros [? ?]|].
      unfold ruleGrammar, isEntry. cbn [fst]. by rewrite Hid, Hfor. }
  rewrite onConfigRule_unfold by done.
  unfold ruleGrammar, factoriesAccept, isEntry.
  cbn [fst snd skipn]. rewrite ?drop_0, Hid, Hfor. cbn [andb].
  destruct (iequals (cs_data forNode) "data"
            || iequals (cs_data forNode) "interest");
    [cbn [andb]|split; [by intros [? ?]|done]].
  split.
  - intros [this' Hrun].
    destruct (getFilters (cs_data idNode) it []) as [[fs rest]| |] eqn:Hf;
      [|done..].
    destruct (getCheckers (cs_data idNode) filename rest [])
      as [[cs rest']| |] eqn:Hc; [|done..].
    apply (getFilters_Ok _ filename) in Hf as [-> Hacc].
    apply getCheckers_Ok in Hc as (-> & Hlen & Hall & Haccs).
    cbn [isEnd negb] in Hrun.
    destruct (List.length cs =? 0)%nat eqn:Hcs; [done|].
    apply Nat.eqb_neq in Hcs.
    unfold tailGrammar. rewrite Hall, (Hacc Haccs).
    destruct (skipEntries "filter" it); [simpl in *; lia|done].
  - intros [Hg Hacc]%andb_true_iff.
    destruct (getFilters_accepted (cs_data idNode) filename it [] Hacc Hg)
      as [fs ->].
    unfold tailGrammar in Hg. apply andb_true_iff in Hg as [Hne Hall].
    destruct (getCheckers_accepted (cs_data idNode) filename
                (skipEntries "filter" it) [] Hall
                (accepted_skipEntries _ _ Hacc)) as [cs Hc].
    rewrite Hc. apply getCheckers_Ok in Hc as (_ & Hlen & _).
    cbn [isEnd negb].
    destruct (List.length cs =? 0)%nat eqn:Hcs; [|by eauto].
    apply Nat.eqb_eq in Hcs.
    destruct (skipEntries "filter" it); [done|simpl in *; lia].
Qed.

(** Whatever a rule section is, it is loaded or it throws, and a section
    that throws leaves the validator as it was. *)
Lemma onConfigRule_outcome section filename this :
  (exists this', onConfigRule section filename this = (Ok tt, this'))
  \/ (exists e, onConfigRule section filename this = (Throw e, this)).
Proof.
  destruct section as [d entries].
  destruct entries as [|[idKey idNode] entries].
  { right. rewrite onConfigRule_no_id by done. eauto. }
  destruct (iequals idKey "id") eqn:Hid.
  2:{ right. rewrite onConfigRule_no_id by done. eauto. }
  destruct entries as [|[forKey forNode] it].
  { right. unfold onConfigRule. cbn [cs_children]. rewrite Hid. cbn [negb].
    unfold throw. eauto. }
  destruct (iequals forKey "for") eqn:Hfor.
  2:{ right. unfold onConfigRule. cbn [cs_children]. rewrite Hid, Hfor.
      cbn [negb]. unfold throw. eauto. }
  rewrite onConfigRule_unfold by done.
  destruct (iequals (cs_data forNode) "data"
            || iequals (cs_data forNode) "interest"); [|by eauto].
  pose proof (getFilters_no_assert (cs_data idNode) it []) as Hf.
  destruct (getFilters (cs_data idNode) it []) as [[fs rest]| |];
    [|by eauto|done].
  pose proof (getCheckers_no_assert (cs_data idNode) filename rest []) as Hc.
  destruct (getCheckers (cs_data idNode) filename rest [])
    as [[cs rest']| |]; [|by eauto|done].
  destruct (negb (isEnd rest')); [by eauto|].
  destruct (List.length cs =? 0)%nat; by eauto.
Qed.

(** When the factories accept the entries, an error raised behind a
    leading [id] entry carries the rule id in its message. *)
Lemma onConfigRule_names_id d idKey idNode entries filename this this' e :
  iequals idKey "id" = true ->
  factoriesAccept filename ((idKey, idNode) :: entries) = true ->
  onConfigRule (Node d ((idKey, idNode) :: entries)) filename this =
    (Throw e, this') ->
  isInfix (cs_data idNode) e = true.
Proof.
  intros Hid Hacc.
  destruct entries as [|[forKey forNode] it].
  { unfold onConfigRule. cbn [cs_children]. rewrite Hid. cbn [negb].
    unfold throw. intros [= <- _]. apply isInfix_middle. }
  destruct (iequals forKey "for") eqn:Hfor.
  2:{ unfold onConfigRule. cbn [cs_children]. rewrite Hid, Hfor. cbn [negb].
      unfold throw. intros [= <- _]. apply isInfix_middle. }
  rewrite onConfigRule_unfold by done.
  unfold factoriesAccept in Hacc. cbn [skipn] in Hacc.
  rewrite ?drop_0 in Hacc.
  destruct (iequals (cs_data forNode) "data"
            || iequals (cs_data forNode) "interest").
  2:{ intros [= <- _]. apply isInfix_append_l, isInfix_append_l, isInfix_end. }
  destruct (getFilters (cs_data idNode) it []) as [[fs rest]| |] eqn:Hf.
  - apply (getFilters_Ok _ filename) in Hf as [-> _].
    destruct (getCheckers (cs_data idNode) filename
                (skipEntries "filter" it) []) as [[cs rest']| |] eqn:Hc.
    + destruct (negb (isEnd rest')); [intros [= <- _]; apply isInfix_end|].
      destruct (List.length cs =? 0)%nat; [|done].
      intros [= <- _]. apply isInfix_end.
    + apply getCheckers_Throw in Hc as ->;
        [|by apply accepted_skipEntries].
      intros [= <- _]. apply isInfix_end.
    + done.
  - apply (getFilters_Throw _ filename) in Hf as ->; [|done].
    intros [= <- _]. apply isInfix_end.
  - done.
Qed.

(** C7, as the code has it.  A rule section is loaded if and only if it
    follows the grammar (one [id], one [for] with the value [data] or
    [interest] up to case, filters, then at least one checker, nothing
    after) and the factories accept each of its filters and checkers.  A
    section that deviates from the grammar, with entries the factories
    accept, raises a configuration error and changes nothing; the message
    carries the rule id when the section starts with an [id] entry, and
    is "Expect <rule.id>!" when it does not. *)
Theorem onConfigRule_grammar section filename this :
  ((exists this', onConfigRule section filename this = (Ok tt, this'))
   <->
   ruleGrammar (cs_children section)
   && factoriesAccept filename (cs_children section) = true)
  /\ (ruleGrammar (cs_children section) = false ->
      factoriesAccept filename (cs_children section) = true ->
      exists e,
        onConfigRule section filename this = (Throw e, this)
        /\ match cs_children section with
           | (idKey, idNode) :: _ =>
               if iequals idKey "id"
               then isInfix (cs_data idNode) e = true
               else e = "Expect <rule.id>!"
           | [] => e = "Expect <rule.id>!"
           end).
Proof.
  split; [apply onConfigRule_Ok_iff|].
  intros Hg Hacc.
  destruct (onConfigRule_outcome section filename this) as [Hok|[e He]].
  { apply onConfigRule_Ok_iff in Hok. rewrite Hg in Hok. done. }
  exists e. split; [done|].
  destruct section as [d [|[idKey idNode] entries]]; cbn [cs_children] in *.
  - rewrite onConfigRule_no_id in He by done. by injection He.
  - destruct (iequals idKey "id") eqn:Hid.
    + by eapply onConfigRule_names_id.
    + rewrite onConfigRule_no_id in He by done. by injection He.
Qed.

(** *** A trust anchor section *)

Lemma storeAnchor_outcome (idCert : IdentityCertificate) this :
  storeAnchor idCert this =
    if 1 <=? Name_size (Cert_getName idCert)
    then (Ok tt, set_anchor (getPrefix (-1) (Cert_getName idCert)) idCert this)
    else (AssertFailed, this).
Proof.
  unfold storeAnchor. run_action.
  by destruct (1 <=? Name_size (Cert_getName idCert)).
Qed.

(** A trust anchor section that does not succeed changes nothing. *)
Lemma onConfigTrustAnchor_failure section filename this res this' :
  onConfigTrustAnchor section filename this = (res, this') ->
  res ≠ Ok tt -> this' = this.
Proof.
  unfold onConfigTrustAnchor.
  destruct (cs_children section) as [|[k1 v1] it]; [by intros [= _ <-]|].
  destruct (negb (iequals k1 "type")); [by intros [= _ <-]|].
  destruct (iequals (cs_data v1) "file").
  { destruct it as [|[k2 v2] it]; [by intros [= _ <-]|].
    destruct (negb (iequals k2 "file-name")); [by intros [= _ <-]|].
    destruct (negb (isEnd it)); [by intros [= _ <-]|].
    destruct (io_load_file _) as [idCert|]; [|by intros [= _ <-]].
    rewrite storeAnchor_outcome.
    destruct (1 <=? Name_size (Cert_getName idCert)); [|by intros [= _ <-]].
    by intros [= <- _]. }
  destruct (iequals (cs_data v1) "base64"); [|by intros [= _ <-]].
  destruct it as [|[k2 v2] it]; [by intros [= _ <-]|].
  destruct (negb (iequals k2 "base64-string")); [by intros [= _ <-]|].
  destruct (negb (isEnd it)); [by intros [= _ <-]|].
  destruct (io_load_stream _) as [idCert|]; [|by intros [= _ <-]].
  rewrite storeAnchor_outcome.
  destruct (1 <=? Name_size (Cert_getName idCert)); [|by intros [= _ <-]].
  by intros [= <- _].
Qed.

Lemma getPrefix_strips_last (n : Name) :
  1 <= Name_size n ->
  exists last, n = getPrefix (-1) n ++ [last].
Proof.
  unfold getPrefix, Name_size. cbn [Z.ltb Z.compare].
  destruct n as [|c n _] using rev_ind; [simpl; lia|]. intros _.
  exists c. rewrite length_app. cbn [List.length].
  replace (Z.to_nat (Z.of_nat (List.length n + 1) + -1)) with (List.length n)
    by lia.
  by rewrite take_app_length.
Qed.

(** C3, as the code has it.  A trust anchor section of type [file] whose
    file holds a certificate with a non-empty name is loaded, and stores
    the certificate under its name without the last component, and only
    the last: [getName().getPrefix(-1)]. *)
Theorem onConfigTrustAnchor_file_key
    d typeKey typeNode fileKey fileNode filename this idCert :
  iequals typeKey "type" = true ->
  iequals (cs_data typeNode) "file" = true ->
  iequals fileKey "file-name" = true ->
  io_load_file (absolute (cs_data fileNode) (parent_path filename))
    = Some idCert ->
  1 <= Name_size (Cert_getName idCert) ->
  let key := getPrefix (-1) (Cert_getName idCert) in
  exists this',
    onConfigTrustAnchor
      (Node d [(typeKey, typeNode); (fileKey, fileNode)]) filename this
      = (Ok tt, this')
    /\ m_anchors this' = <[key := idCert]> (m_anchors this)
    /\ m_anchors this' !! key = Some idCert
    /\ exists last, Cert_getName idCert = key ++ [last].
Proof.
  intros Htype Hfile Hname Hload Hsize key.
  exists (set_anchor key idCert this).
  split; [|split; [done|split]].
  - unfold onConfigTrustAnchor. cbn [cs_children].
    rewrite Htype, Hfile, Hname. cbn [negb isEnd]. rewrite Hload.
    rewrite storeAnchor_outcome.
    by replace (1 <=? Name_size (Cert_getName idCert)) with true by lia.
  - cbn [set_anchor m_anchors]. apply lookup_insert_eq.
  - by apply getPrefix_strips_last.
Qed.

(** *** The tree *)

Lemma extends_refl this : extends this this.
Proof. by repeat split. Qed.

Lemma extends_trans this1 this2 this3 :
  extends this1 this2 -> extends this2 this3 -> extends this1 this3.
Proof.
  intros (? & ? & ? & ? & ? & ?) (? & ? & ? & ? & ? & ?).
  repeat split; try congruence; by etrans.
Qed.

Lemma onConfigRule_extends section filename this res this' :
  onConfigRule section filename this = (res, this') -> extends this this'.
Proof.
  destruct (onConfigRule_outcome section filename this) as [[this1 Hok]|[e ->]];
    [|intros [= _ <-]; apply extends_refl].
  rewrite Hok. intros [= _ <-]. revert Hok.
  destruct section as [d [|[idKey idNode] entries]];
    [by rewrite onConfigRule_no_id|].
  destruct (iequals idKey "id") eqn:Hid; [|by rewrite onConfigRule_no_id].
  destruct entries as [|[forKey forNode] it].
  { unfold onConfigRule. cbn [cs_children]. by rewrite Hid. }
  destruct (iequals forKey "for") eqn:Hfor.
  2:{ unfold onConfigRule. cbn [cs_children]. by rewrite Hid, Hfor. }
  rewrite onConfigRule_unfold by done.
  destruct (iequals (cs_data forNode) "data"
            || iequals (cs_data forNode) "interest"); [|done].
  destruct (getFilters _ it []) as [[fs rest]| |]; [|done..].
  destruct (getCheckers _ filename rest []) as [[cs rest']| |]; [|done..].
  destruct (negb (isEnd rest')); [done|].
  destruct (List.length cs =? 0)%nat; [done|].
  destruct (iequals (cs_data forNode) "data"); intros [= <-];
    repeat split; try done; cbn [push_dataRule push_interestRule
                                   m_dataRules m_interestRules];
    by apply prefix_app_r.
Qed.

Lemma onConfigTrustAnchor_extends section filename this res this' :
  onConfigTrustAnchor section filename this = (res, this') ->
  extends this this'.
Proof.
  intros Hrun.
  assert (res = Ok tt \/ res ≠ Ok tt) as [->|Hres]
    by (destruct res as [[]| |]; auto).
  2:{ rewrite (onConfigTrustAnchor_failure _ _ _ _ _ Hrun Hres).
      apply extends_refl. }
  assert (Hstore : forall idCert,
             storeAnchor idCert this = (Ok tt, this') -> extends this this').
  { intros idCert. rewrite storeAnchor_outcome.
    destruct (1 <=? Name_size (Cert_getName idCert)); [|done].
    intros [= <-]. repeat split; try done.
    cbn [set_anchor m_anchors]. apply dom_insert_subseteq. }
  revert Hrun. unfold onConfigTrustAnchor.
  destruct (cs_children section) as [|[k1 v1] it]; [done|].
  destruct (negb (iequals k1 "type")); [done|].
  destruct (iequals (cs_data v1) "file").
  { destruct it as [|[k2 v2] it]; [done|].
    destruct (negb (iequals k2 "file-name")); [done|].
    destruct (negb (isEnd it)); [done|].
    destruct (io_load_file _) as [idCert|]; [apply Hstore|done]. }
  destruct (iequals (cs_data v1) "base64"); [|done].
  destruct it as [|[k2 v2] it]; [done|].
  destruct (negb (iequals k2 "base64-string")); [done|].
  destruct (negb (isEnd it)); [done|].
  destruct (io_load_stream _) as [idCert|]; [apply Hstore|done].
Qed.

Lemma onSection_extends sectionName section filename this res this' :
  onSection sectionName section filename this = (res, this') ->
  extends this this'.
Proof.
  unfold onSection. destruct (iequals sectionName "rule").
  - apply onConfigRule_extends.
  - destruct (iequals sectionName "trust-anchor").
    + apply onConfigTrustAnchor_extends.
    + intros [= _ <-]. apply extends_refl.
Qed.

(** Loading sections only appends rules and adds or replaces anchors. *)
Lemma loadSections_extends it filename this res this' :
  loadSections it filename this = (res, this') -> extends this this'.
Proof.
  revert this. induction it as [|[name section] it IH]; intros this.
  - intros [= _ <-]. apply extends_refl.
  - cbn [loadSections]. run_action.
    destruct (onSection name section filename this) as [r this1] eqn:Hs.
    apply onSection_extends in Hs.
    destruct r as [[]| |].
    + intros Hrest%IH. by eapply extends_trans.
    + by intros [= _ <-].
    + by intros [= _ <-].
Qed.

Lemma onSection_failure sectionName section filename this res this' :
  onSection sectionName section filename this = (res, this') ->
  res ≠ Ok tt -> this' = this.
Proof.
  unfold onSection. destruct (iequals sectionName "rule").
  - destruct (onConfigRule_outcome section filename this)
      as [[this1 ->]|[e ->]]; [by intros [= <- _]|by intros [= _ <-]].
  - destruct (iequals sectionName "trust-anchor").
    + apply onConfigTrustAnchor_failure.
    + by intros [= _ <-].
Qed.

(** A malformed section throws and changes nothing. *)
Lemma onSection_malformed sectionName section filename this :
  malformedSection sectionName section = true ->
  exists e, onSection sectionName section filename this = (Throw e, this).
Proof.
  unfold malformedSection, onSection.
  destruct (iequals sectionName "rule").
  - intros Hg%negb_true_iff.
    destruct (onConfigRule_outcome section filename this) as [Hok|?];
      [|done].
    apply onConfigRule_Ok_iff in Hok. by rewrite Hg in Hok.
  - intros ->%negb_true_iff. unfold throw. eauto.
Qed.

Lemma loadSections_app pre post filename this :
  loadSections (pre ++ post) filename this =
    match loadSections pre filename this with
    | (Ok _, this') => loadSections post filename this'
    | other => other
    end.
Proof.
  revert this. induction pre as [|[name section] pre IH]; intros this;
    [done|].
  cbn [app loadSections]. run_action.
  destruct (onSection name section filename this) as [[[]| |] this1];
    [apply IH|done..].
Qed.

(** C2, as the code has it.  When the sections before a malformed one
    load, [load] throws a configuration error and leaves the validator as
    those sections made it: the malformed section and the sections behind
    it add nothing, and what the earlier sections added stays.  The same
    holds of a section that fails for any other reason. *)
Theorem load_malformed_section
    d pre sectionName section post filename this this1 :
  filename ≠ EmptyString ->
  loadSections pre filename this = (Ok tt, this1) ->
  let tree := Node d (pre ++ (sectionName, section) :: post) in
  extends this this1
  /\ (malformedSection sectionName section = true ->
      exists e, load tree filename this = (Throw e, this1))
  /\ (forall res this2,
        onSection sectionName section filename this1 = (res, this2) ->
        res ≠ Ok tt ->
        load tree filename this = (res, this1)).
Proof.
  intros Hname Hpre tree.
  assert (Hload : load tree filename this =
                  match onSection sectionName section filename this1 with
                  | (Ok _, this2) => loadSections post filename this2
                  | other => other
                  end).
  { unfold load. run_action.
    destruct (String.eqb filename EmptyString) eqn:E;
      [by apply String.eqb_eq in E|]. cbn [negb tree cs_children].
    replace (isEnd (pre ++ (sectionName, section) :: post)) with false
      by (by destruct pre).
    rewrite loadSections_app, Hpre. cbn [loadSections]. run_action.
    by destruct (onSection sectionName section filename this1)
      as [[[]| |] ?]. }
  split; [by eapply loadSections_extends|]. split.
  - intros Hbad.
    destruct (onSection_malformed sectionName section filename this1 Hbad)
      as [e He].
    exists e. by rewrite Hload, He.
  - intros res this2 Hs Hres. rewrite Hload, Hs.
    rewrite (onSection_failure _ _ _ _ _ _ Hs Hres).
    destruct res as [[]| |]; done.
Qed.

(** ** The constructor *)

(** C10.  Construction throws when the face is null; otherwise it
    succeeds and the certificate cache of the new validator is not null:
    it is the cache passed in, or a new TTL cache on the io service of
    the face when the one passed in is null. *)
Theorem ValidatorConfig_new_cache
    (face : option Face) (certificateCache : option CertificateCache)
    (stepLimit : Z) :
  match face with
  | None =>
      ValidatorConfig_new face certificateCache stepLimit
      = Throw "Face is not set!"
  | Some f =>
      exists this,
        ValidatorConfig_new face certificateCache stepLimit = Ok this
        /\ m_certificateCache this =
             Some (default (CertificateCacheTtl (ioService f))
                           certificateCache)
        /\ m_certificateCache this ≠ None
        /\ m_stepLimit this = stepLimit
  end.
Proof.
  destruct face as [f|]; [|done].
  destruct certificateCache as [c|]; eexists; by repeat split.
Qed.

End Loading.

(** ** Loading on sample inputs *)

(** C2 fails as stated: the tree holds a well-formed rule and then a
    section of an unknown kind; [load] throws, and the rule is in the
    rule list all the same. *)
Lemma load_keeps_earlier_sections :
  malformedSection (fst bogusSection) (snd bogusSection) = true
  /\ m_dataRules (validator 3 [] []) = []
  /\ exists e this',
      load brokenTree confFile (validator 3 [] []) = (Throw e, this')
      /\ m_dataRules this' = [goodRuleLoaded]
      /\ this' ≠ validator 3 [] [].
Proof.
  split; [reflexivity|]. split; [reflexivity|].
  eexists _, (push_dataRule goodRuleLoaded (validator 3 [] [])).
  split; [reflexivity|]. split; [reflexivity|]. discriminate.
Qed.

Lemma load_malformed_section_witness :
  exists e,
    load brokenTree confFile (validator 3 [] [])
    = (Throw e, push_dataRule goodRuleLoaded (validator 3 [] [])).
Proof.
  refine (proj1 (proj2 (load_malformed_section EmptyString [goodRule]
                          (fst bogusSection) (snd bogusSection) [] confFile
                          (validator 3 [] [])
                          (push_dataRule goodRuleLoaded (validator 3 [] []))
                          _ _)) _).
  - discriminate.
  - reflexivity.
  - reflexivity.
Defined.

(** C3 fails as stated: the certificate named /a/b/KEY/c is stored under
    /a/b/KEY, and nothing is stored under /a/b. *)
Lemma anchor_key_is_not_identity_prefix :
  Cert_getName anchorCert = ["a"; "b"; "KEY"; "c"]
  /\ exists this',
      onConfigTrustAnchor fileAnchor confFile (validator 3 [] [])
      = (Ok tt, this')
      /\ m_anchors this' !! ["a"; "b"] = None
      /\ m_anchors this' !! ["a"; "b"; "KEY"] = Some anchorCert.
Proof.
  split; [reflexivity|].
  exists (set_anchor ["a"; "b"; "KEY"] anchorCert (validator 3 [] [])).
  split; [reflexivity|]. cbn [set_anchor m_anchors validator]. split.
  - rewrite lookup_insert_ne by discriminate. apply lookup_empty.
  - apply lookup_insert_eq.
Qed.

Lemma onConfigTrustAnchor_file_key_witness :
  exists this',
    onConfigTrustAnchor fileAnchor confFile (validator 3 [] [])
    = (Ok tt, this')
    /\ m_anchors this' = <[["a"; "b"; "KEY"] := anchorCert]> ∅
    /\ m_anchors this' !! ["a"; "b"; "KEY"] = Some anchorCert
    /\ exists last, Cert_getName anchorCert = ["a"; "b"; "KEY"] ++ [last].
Proof.
  refine (onConfigTrustAnchor_file_key EmptyString
            "type" (Node "file" []) "file-name" (Node "anchor.cert" [])
            confFile (validator 3 [] []) anchorCert _ _ _ _ _).
  - reflexivity.
  - reflexivity.
  - reflexivity.
  - reflexivity.
  - discriminate.
Defined.

(** C7 fails as stated: the section has the id r1 behind its [for]
    entry, and the error it raises does not name r1. *)
Lemma rule_error_does_not_name_id :
  ruleGrammar (cs_children ruleWithoutLeadingId) = false
  /\ exists e,
      onConfigRule ruleWithoutLeadingId confFile (validator 3 [] [])
      = (Throw e, validator 3 [] [])
      /\ isInfix "r1" e = false.
Proof.
  split; [reflexivity|]. eexists. split; reflexivity.
Qed.

Lemma onConfigRule_grammar_witness :
  exists e,
    onConfigRule ruleWithoutChecker confFile (validator 3 [] [])
    = (Throw e, validator 3 [] [])
    /\ isInfix "r2" e = true.
Proof.
  refine (proj2 (onConfigRule_grammar ruleWithoutChecker confFile
                   (validator 3 [] [])) _ _).
  - reflexivity.
  - reflexivity.
Defined.

(** * Further properties *)

(** ** Loading: trees, order, composition *)
Section MoreLoading.
Context `{Collaborators}.
Implicit Types (this : ValidatorConfig) (filename ruleId : string).
Implicit Types (it rest : list (string * ConfigSection)).

Ltac run_action :=
  unfold mbind, Action_bind, lift, ret, throw, modify, assert in *;
  cbn beta iota in *.

Lemma load_unfold d it filename this :
  filename ≠ EmptyString -> it ≠ [] ->
  load (Node d it) filename this = loadSections it filename this.
Proof.
  intros Hname Hit. unfold load. run_action.
  destruct (String.eqb filename EmptyString) eqn:E;
    [by apply String.eqb_eq in E|].
  cbn [negb cs_children]. by destruct it.
Qed.

(** X1.  An empty tree is refused: [load] throws "Error processing
    configuration file: <filename> no data" and changes nothing. *)
Theorem load_empty_tree d filename this :
  filename ≠ EmptyString ->
  load (Node d []) filename this =
    (Throw ("Error processing configuration file: " +:+ filename
            +:+ " no data"), this).
Proof.
  intros Hname. unfold load. run_action.
  destruct (String.eqb filename EmptyString) eqn:E;
    [by apply String.eqb_eq in E|].
  reflexivity.
Qed.

Lemma load_tree_extends tree filename this res this' :
  load tree filename this = (res, this') -> extends this this'.
Proof.
  unfold load. run_action.
  destruct (negb (String.eqb filename EmptyString));
    [|intros [= _ <-]; apply extends_refl].
  destruct (isEnd (cs_children tree));
    [intros [= _ <-]; apply extends_refl|].
  apply loadSections_extends.
Qed.

(** X3.  Loading a tree is loading its sections from left to right: a
    tree cut in two non-empty parts loads like the first part followed,
    if that succeeds, by the second part on the validator it leaves. *)
Theorem load_app d d1 d2 pre post filename this :
  filename ≠ EmptyString -> pre ≠ [] -> post ≠ [] ->
  load (Node d (pre ++ post)) filename this =
    match load (Node d1 pre) filename this with
    | (Ok _, this1) => load (Node d2 post) filename this1
    | other => other
    end.
Proof.
  intros Hname Hpre Hpost.
  rewrite !load_unfold by (try done; by destruct pre).
  rewrite loadSections_app.
  destruct (loadSections pre filename this) as [[[]| |] this1]; [|done..].
  by rewrite load_unfold.
Qed.

(** *** What a rule section adds *)

Lemma fold_addFilter (fs : list Filter) (r : Rule) :
  fold_left addFilter fs r = mkRule (m_id r) (m_filters r ++ fs) (m_checkers r).
Proof.
  revert r. induction fs as [|f fs IH]; intros r; cbn [fold_left].
  - rewrite app_nil_r. by destruct r.
  - rewrite IH. cbn [addFilter m_id m_filters m_checkers].
    by rewrite <- app_assoc.
Qed.

Lemma fold_addChecker (cs : list Checker) (r : Rule) :
  fold_left addChecker cs r = mkRule (m_id r) (m_filters r) (m_checkers r ++ cs).
Proof.
  revert r. induction cs as [|c cs IH]; intros r; cbn [fold_left].
  - rewrite app_nil_r. by destruct r.
  - rewrite IH. cbn [addChecker m_id m_filters m_checkers].
    by rewrite <- app_assoc.
Qed.

(** Adding the filters and the checkers one by one keeps their order. *)
Lemma makeRule_eq ruleId (fs : list Filter) (cs : list Checker) :
  makeRule ruleId fs cs = mkRule ruleId fs cs.
Proof. unfold makeRule. by rewrite fold_addChecker, fold_addFilter. Qed.

Lemma getFilters_created ruleId it (acc fs : list Filter) rest :
  getFilters ruleId it acc = Ok (fs, rest) ->
  exists new,
    fs = acc ++ new
    /\ Forall2 (fun e f => FilterFactory_create (snd e) = inr f)
               (takeEntries "filter" it) new.
Proof.
  revert acc. induction it as [|[k v] it IH]; intros acc;
    cbn [getFilters takeEntries].
  - intros [= <- _]. exists []. by rewrite app_nil_r.
  - change (isEntry "filter" (k, v)) with (iequals k "filter").
    destruct (iequals k "filter"); cbn [negb].
    + destruct (FilterFactory_create v) as [msg|f] eqn:Hf; [done|].
      intros (new & -> & Hnew)%IH. exists (f :: new).
      rewrite <- app_assoc. split; [done|]. by constructor.
    + destruct (iequals k "checker"); [|done].
      intros [= <- _]. exists []. by rewrite app_nil_r.
Qed.

Lemma getCheckers_created ruleId filename it (acc cs : list Checker) rest :
  getCheckers ruleId filename it acc = Ok (cs, rest) ->
  exists new,
    cs = acc ++ new
    /\ Forall2 (fun e c => CheckerFactory_create (snd e) filename = inr c)
               it new.
Proof.
  revert acc. induction it as [|[k v] it IH]; intros acc; cbn [getCheckers].
  - intros [= <- _]. exists []. by rewrite app_nil_r.
  - destruct (negb (iequals k "checker")); [done|].
    destruct (CheckerFactory_create v filename) as [msg|c] eqn:Hc; [done|].
    intros (new & -> & Hnew)%IH. exists (c :: new).
    rewrite <- app_assoc. split; [done|]. by constructor.
Qed.

(** The rule a well-formed section adds, and the list it is added to. *)
Lemma onConfigRule_loaded section filename this :
  ruleGrammar (cs_children section)
  && factoriesAccept filename (cs_children section) = true ->
  exists rule,
    onConfigRule section filename this =
      (Ok tt, if ruleSectionForData section
              then push_dataRule rule this
              else push_interestRule rule this)
    /\ m_id rule = ruleSectionId section
    /\ Forall2 (fun e f => FilterFactory_create (snd e) = inr f)
               (takeEntries "filter" (drop 2 (cs_children section)))
               (m_filters rule)
    /\ Forall2 (fun e c => CheckerFactory_create (snd e) filename = inr c)
               (skipEntries "filter" (drop 2 (cs_children section)))
               (m_checkers rule).
Proof.
  intros Hwf.
  destruct (proj2 (onConfigRule_Ok_iff section filename this) Hwf)
    as [this' Hrun].
  apply andb_true_iff in Hwf as [Hg _].
  destruct section as [d [|[idKey idNode] [|[forKey forNode] it]]];
    try done.
  unfold ruleGrammar, isEntry in Hg. cbn [fst snd] in Hg.
  apply andb_true_iff in Hg as [[[Hid Hfor]%andb_true_iff _]%andb_true_iff _].
  rewrite Hrun. rewrite onConfigRule_unfold in Hrun by done.
  unfold ruleSectionForData, ruleSectionId. cbn [cs_children skipn].
  rewrite ?drop_0.
  destruct (iequals (cs_data forNode) "data"
            || iequals (cs_data forNode) "interest"); [|done].
  destruct (getFilters (cs_data idNode) it []) as [[fs rest]| |] eqn:Hf;
    [|done..].
  destruct (getCheckers (cs_data idNode) filename rest [])
    as [[cs rest']| |] eqn:Hc; [|done..].
  destruct (negb (isEnd rest')); [done|].
  destruct (List.length cs =? 0)%nat; [done|].
  injection Hrun as <-.
  apply getFilters_created in Hf as Hfs. destruct Hfs as (fs' & -> & Hfs).
  apply (getFilters_Ok _ filename) in Hf as [-> _].
  apply getCheckers_created in Hc as (cs' & -> & Hcs).
  rewrite makeRule_eq. exists (mkRule (cs_data idNode) fs' cs').
  split; [by destruct (iequals (cs_data forNode) "data")|]. by repeat split.
Qed.

(** X4.  A rule section that follows the grammar, with filters and
    checkers the factories accept, adds exactly one rule, at the end of
    the data rules when its [for] value is [data] and of the interest
    rules otherwise.  The rule has the id of the section, the filters
    created from its [filter] entries and the checkers created from its
    [checker] entries, each in the order of the entries, and at least
    one checker. *)
Theorem onConfigRule_adds_rule section filename this :
  ruleGrammar (cs_children section)
  && factoriesAccept filename (cs_children section) = true ->
  exists rule,
    onConfigRule section filename this =
      (Ok tt, if ruleSectionForData section
              then push_dataRule rule this
              else push_interestRule rule this)
    /\ m_id rule = ruleSectionId section
    /\ Forall2 (fun e f => FilterFactory_create (snd e) = inr f)
               (takeEntries "filter" (drop 2 (cs_children section)))
               (m_filters rule)
    /\ Forall2 (fun e c => CheckerFactory_create (snd e) filename = inr c)
               (skipEntries "filter" (drop 2 (cs_children section)))
               (m_checkers rule)
    /\ m_checkers rule ≠ [].
Proof.
  intros Hwf.
  destruct (onConfigRule_loaded section filename this Hwf)
    as (rule & Hrun & Hid & Hfs & Hcs).
  exists rule. do 4 (split; [done|]).
  apply andb_true_iff in Hwf as [Hg _].
  destruct section as [d [|idEntry [|forEntry rest]]]; try done.
  unfold ruleGrammar in Hg. apply andb_true_iff in Hg as [_ Hg].
  unfold tailGrammar in Hg. apply andb_true_iff in Hg as [Hne _].
  cbn [cs_children skipn] in Hcs. rewrite ?drop_0 in Hcs.
  intros Hnil. rewrite Hnil in Hcs. apply Forall2_nil_inv_r in Hcs.
  by rewrite Hcs in Hne.
Qed.

(** *** Rule sections in a row *)

Lemma loadSections_rule_sections sections filename this :
  forallb (wellFormedRuleSection filename) sections = true ->
  exists this',
    loadSections sections filename this = (Ok tt, this')
    /\ map m_id (m_dataRules this') =
         map m_id (m_dataRules this)
           ++ map (fun s => ruleSectionId (snd s))
                  (List.filter (fun s => ruleSectionForData (snd s)) sections)
    /\ map m_id (m_interestRules this') =
         map m_id (m_interestRules this)
           ++ map (fun s => ruleSectionId (snd s))
                  (List.filter (fun s => negb (ruleSectionForData (snd s)))
                               sections)
    /\ m_anchors this' = m_anchors this
    /\ m_stepLimit this' = m_stepLimit this.
Proof.
  revert this. induction sections as [|[name section] sections IH];
    intros this; cbn [forallb loadSections List.filter].
  - intros _. exists this. by rewrite !app_nil_r.
  - intros [Hwf Hall]%andb_true_iff.
    unfold wellFormedRuleSection in Hwf. cbn [fst snd] in Hwf.
    rewrite <- andb_assoc in Hwf. apply andb_true_iff in Hwf as [Hname Hwf].
    destruct (onConfigRule_loaded section filename this Hwf)
      as (rule & Hrun & Hid & _).
    run_action. unfold onSection. rewrite Hname, Hrun. cbn [snd].
    destruct (ruleSectionForData section); cbn [negb].
    + destruct (IH (push_dataRule rule this) Hall)
        as (this' & -> & Hd & Hi & Ha & Hs).
      exists this'. split; [done|]. rewrite Hd, Hi, Ha, Hs.
      cbn [push_dataRule m_dataRules m_interestRules m_anchors m_stepLimit
           map].
      rewrite map_app, <- app_assoc. cbn [map app]. by rewrite Hid.
    + destruct (IH (push_interestRule rule this) Hall)
        as (this' & -> & Hd & Hi & Ha & Hs).
      exists this'. split; [done|]. rewrite Hd, Hi, Ha, Hs.
      cbn [push_interestRule m_dataRules m_interestRules m_anchors
           m_stepLimit map].
      rewrite map_app, <- app_assoc. cbn [map app]. by rewrite Hid.
Qed.

(** X5.  A tree of well-formed rule sections loads, and the order of the
    sections is the order of the rules: the ids of the data rules are
    those there were, followed by the ids of the [data] sections in the
    order of the tree, and likewise for the interest rules.  The trust
    anchors and the step limit stay as they were. *)
Theorem load_rule_sections_in_order d sections filename this :
  filename ≠ EmptyString ->
  sections ≠ [] ->
  forallb (wellFormedRuleSection filename) sections = true ->
  exists this',
    load (Node d sections) filename this = (Ok tt, this')
    /\ map m_id (m_dataRules this') =
         map m_id (m_dataRules this)
           ++ map (fun s => ruleSectionId (snd s))
                  (List.filter (fun s => ruleSectionForData (snd s)) sections)
    /\ map m_id (m_interestRules this') =
         map m_id (m_interestRules this)
           ++ map (fun s => ruleSectionId (snd s))
                  (List.filter (fun s => negb (ruleSectionForData (snd s)))
                               sections)
    /\ m_anchors this' = m_anchors this
    /\ m_stepLimit this' = m_stepLimit this.
Proof.
  intros Hname Hne Hwf. rewrite load_unfold by done.
  by apply loadSections_rule_sections.
Qed.

(** *** Keys are compared up to case *)

Lemma sameUpToKeyCase_key (e e' : string * ConfigSection) (key : string) :
  iequals (fst e) (fst e') = true -> iequals (fst e) key = iequals (fst e') key.
Proof. apply iequals_agree. Qed.

Lemma getCheckers_sameUpToKeyCase ruleId filename it it' (acc : list Checker) :
  sameUpToKeyCase it it' ->
  getCheckers ruleId filename it acc = getCheckers ruleId filename it' acc.
Proof.
  intros Hsame. revert acc.
  induction Hsame as [|[k v] [k' v'] it it' [Hk Hv] _ IH]; intros acc;
    [done|].
  cbn [fst snd] in *. subst v'. cbn [getCheckers].
  rewrite (iequals_agree _ _ "checker" Hk).
  destruct (negb (iequals k' "checker")); [done|].
  destruct (CheckerFactory_create v filename); [done|]. apply IH.
Qed.

Lemma getFilters_sameUpToKeyCase ruleId it it' (acc : list Filter) :
  sameUpToKeyCase it it' ->
  match getFilters ruleId it acc, getFilters ruleId it' acc with
  | Ok (fs, rest), Ok (fs', rest') => fs = fs' /\ sameUpToKeyCase rest rest'
  | Throw e, Throw e' => e = e'
  | AssertFailed, AssertFailed => True
  | _, _ => False
  end.
Proof.
  intros Hsame. revert acc.
  induction Hsame as [|[k v] [k' v'] it it' [Hk Hv] Hsame IH]; intros acc.
  - cbn [getFilters]. split; [done|constructor].
  - cbn [fst snd] in *. subst v'. cbn [getFilters].
    rewrite (iequals_agree _ _ "filter" Hk), (iequals_agree _ _ "checker" Hk).
    destruct (iequals k' "filter"); cbn [negb].
    + destruct (FilterFactory_create v); [done|]. apply IH.
    + destruct (iequals k' "checker"); [|done].
      split; [done|]. by constructor.
Qed.

Lemma onConfigRule_sameUpToKeyCase d d' entries entries' filename this :
  sameUpToKeyCase entries entries' ->
  onConfigRule (Node d entries) filename this =
  onConfigRule (Node d' entries') filename this.
Proof.
  intros Hsame. unfold onConfigRule. cbn [cs_children].
  destruct Hsame as [|[k1 v1] [k1' v1'] it it' [Hk1 Hv1] Hsame]; [done|].
  cbn [fst snd] in *. subst v1'. rewrite (iequals_agree _ _ "id" Hk1).
  destruct (negb (iequals k1' "id")); [done|].
  destruct Hsame as [|[k2 v2] [k2' v2'] it it' [Hk2 Hv2] Hsame]; [done|].
  cbn [fst snd] in *. subst v2'. rewrite (iequals_agree _ _ "for" Hk2).
  destruct (negb (iequals k2' "for")); [done|].
  run_action.
  pose proof (getFilters_sameUpToKeyCase (cs_data v1) it it' [] Hsame) as Hf.
  assert (Hc : forall rest rest', sameUpToKeyCase rest rest' ->
             getCheckers (cs_data v1) filename rest [] =
             getCheckers (cs_data v1) filename rest' [])
    by (intros; by apply getCheckers_sameUpToKeyCase).
  destruct (iequals (cs_data v2) "data");
    [|destruct (iequals (cs_data v2) "interest"); [|done]];
    (destruct (getFilters (cs_data v1) it []) as [[fs rest]| |],
       (getFilters (cs_data v1) it' []) as [[fs' rest']| |]; try done;
     [destruct Hf as [<- Hrest]; by rewrite (Hc _ _ Hrest) | by subst]).
Qed.

(** X6.  The keys of a rule section and the names of the sections of the
    tree are compared up to case: a rule section handled with other
    letter cases in its keys, and a rule or trust-anchor section named
    in another letter case, is handled in the same way, to the same
    result and the same validator.  The data of the section node itself
    plays no part. *)
Theorem keys_up_to_case :
  (forall d d' entries entries' filename this,
      sameUpToKeyCase entries entries' ->
      onConfigRule (Node d entries) filename this =
      onConfigRule (Node d' entries') filename this)
  /\ (forall name name' section filename this,
      iequals name name' = true ->
      iequals name "rule" || iequals name "trust-anchor" = true ->
      onSection name section filename this =
      onSection name' section filename this).
Proof.
  split; [apply onConfigRule_sameUpToKeyCase|].
  intros name name' section filename this Hn Hknown. unfold onSection.
  rewrite <- (iequals_agree _ _ "rule" Hn),
    <- (iequals_agree _ _ "trust-anchor" Hn).
  destruct (iequals name "rule"); [done|].
  by destruct (iequals name "trust-anchor").
Qed.

(** *** Trust anchors *)

(** A trust anchor section stores the certificate it designates, or
    throws and changes nothing when it designates none. *)
Lemma onConfigTrustAnchor_outcome section filename this :
  match anchorCertificate filename section with
  | Some idCert =>
      onConfigTrustAnchor section filename this = storeAnchor idCert this
  | None =>
      exists e, onConfigTrustAnchor section filename this = (Throw e, this)
  end.
Proof.
  unfold anchorCertificate, onConfigTrustAnchor, throw.
  destruct (cs_children section) as [|[k1 v1] it]; [by eauto|].
  destruct it as [|[k2 v2] it].
  { destruct (negb (iequals k1 "type")); [by eauto|].
    destruct (iequals (cs_data v1) "file"); [by eauto|].
    destruct (iequals (cs_data v1) "base64"); by eauto. }
  destruct (negb (iequals k1 "type")); [by destruct it; eauto|].
  destruct (iequals (cs_data v1) "file").
  { destruct (iequals k2 "file-name"); cbn [negb]; [|by destruct it; eauto].
    destruct it; cbn [isEnd negb]; [|by eauto].
    destruct (io_load_file _); by eauto. }
  destruct (iequals (cs_data v1) "base64"); [|by destruct it; eauto].
  destruct (iequals k2 "base64-string"); cbn [negb]; [|by destruct it; eauto].
  destruct it; cbn [isEnd negb]; [|by eauto].
  destruct (io_load_stream _); by eauto.
Qed.

Lemma onConfigTrustAnchor_Ok section filename this this' :
  onConfigTrustAnchor section filename this = (Ok tt, this')
  <->
  exists idCert,
    anchorCertificate filename section = Some idCert
    /\ 1 <= Name_size (Cert_getName idCert)
    /\ this' = set_anchor (getPrefix (-1) (Cert_getName idCert)) idCert this.
Proof.
  pose proof (onConfigTrustAnchor_outcome section filename this) as Hout.
  destruct (anchorCertificate filename section) as [idCert|].
  - rewrite Hout, storeAnchor_outcome.
    destruct (1 <=? Name_size (Cert_getName idCert)) eqn:E.
    + split.
      * intros [= <-]. exists idCert. split; [done|]. split; [lia|done].
      * by intros (? & [= <-] & _ & ->).
    + split; [done|]. intros (? & [= <-] & ? & _). lia.
  - destruct Hout as [e ->]. split; [done|]. by intros (? & ? & _).
Qed.

(** X7.  A trust anchor section is loaded exactly when it consists of a
    [type] entry and one source entry of that type ([file-name] for
    [file], [base64-string] for [base64], all up to case) from which a
    certificate with a non-empty name is read; the validator then differs
    from the one before in the anchor stored under the certificate name
    without its last component.  A section that is not loaded leaves the
    validator as it was. *)
Theorem onConfigTrustAnchor_loads_iff section filename this :
  (forall this',
      onConfigTrustAnchor section filename this = (Ok tt, this')
      <->
      exists idCert,
        anchorCertificate filename section = Some idCert
        /\ 1 <= Name_size (Cert_getName idCert)
        /\ this' = set_anchor (getPrefix (-1) (Cert_getName idCert))
                              idCert this)
  /\ (forall res this',
        onConfigTrustAnchor section filename this = (res, this') ->
        res ≠ Ok tt -> this' = this).
Proof.
  split.
  - intros this'. apply onConfigTrustAnchor_Ok.
  - intros res this' Hrun Hres.
    by apply (onConfigTrustAnchor_failure _ _ _ _ _ Hrun).
Qed.

Lemma set_anchor_twice key (cert cert' : IdentityCertificate) this :
  set_anchor key cert' (set_anchor key cert this) = set_anchor key cert' this.
Proof.
  unfold set_anchor. cbn [m_face m_stepLimit m_certificateCache m_dataRules
                          m_interestRules m_anchors].
  by rewrite insert_insert_eq.
Qed.

(** X8.  Storing a trust anchor replaces what was stored under its key
    and touches no other key, so the certificate loaded last is the one
    found; and loading the same trust anchor section a second time
    changes nothing. *)
Theorem onConfigTrustAnchor_replaces section filename this this' :
  onConfigTrustAnchor section filename this = (Ok tt, this') ->
  (exists idCert,
      anchorCertificate filename section = Some idCert
      /\ m_anchors this' !! getPrefix (-1) (Cert_getName idCert) = Some idCert
      /\ forall key, key ≠ getPrefix (-1) (Cert_getName idCert) ->
                     m_anchors this' !! key = m_anchors this !! key)
  /\ onConfigTrustAnchor section filename this' = (Ok tt, this').
Proof.
  intros (idCert & Hcert & Hsize & ->)%onConfigTrustAnchor_Ok. split.
  - exists idCert. split; [done|]. cbn [set_anchor m_anchors]. split.
    + apply lookup_insert_eq.
    + intros key Hkey. by rewrite lookup_insert_ne.
  - apply onConfigTrustAnchor_Ok. exists idCert.
    by rewrite set_anchor_twice.
Qed.

End MoreLoading.

(** ** Loading from a file, a string or a stream *)
Section MoreInput.
Context `{Collaborators} `{Input}.
Implicit Types (this : ValidatorConfig) (filename input : string).

Lemma load_stream_extends input filename this res this' :
  load_stream input filename this = (res, this') -> extends this this'.
Proof.
  unfold load_stream. destruct (read_info input).
  - intros [= _ <-]. apply extends_refl.
  - apply load_tree_extends.
Qed.

(** X2.  Whatever it is given and however it ends, [load] only appends
    rules and adds or replaces trust anchors: the rules there were stay
    at the head of their lists, no anchor key disappears, and the face,
    the step limit and the certificate cache are not touched.  This holds
    for the tree, the stream, the string and the file overload. *)
Theorem load_extends :
  (forall tree filename this res this',
      load tree filename this = (res, this') -> extends this this')
  /\ (forall input filename this res this',
      load_stream input filename this = (res, this') -> extends this this')
  /\ (forall input filename this res this',
      load_string input filename this = (res, this') -> extends this this')
  /\ (forall filename this res this',
      load_file filename this = (res, this') -> extends this this').
Proof.
  split; [apply load_tree_extends|]. split; [apply load_stream_extends|].
  split; [apply load_stream_extends|].
  intros filename this res this'. unfold load_file.
  destruct (ifstream_open filename).
  - apply load_stream_extends.
  - intros [= _ <-]. apply extends_refl.
Qed.

(** X9.  A file that cannot be opened, and a file or text that cannot be
    parsed, make [load] throw a configuration error whose message names
    the file; the validator is left as it was.  An unparsable text is
    refused in the same way whatever it was read from. *)
Theorem load_unreadable_or_unparsable :
  (forall filename this,
      ifstream_open filename = None ->
      load_file filename this =
        (Throw ("Failed to read configuration file: " +:+ filename), this))
  /\ (forall input error filename this,
      read_info input = inl error ->
      exists msg,
        load_stream input filename this = (Throw msg, this)
        /\ load_string input filename this = (Throw msg, this)
        /\ (ifstream_open filename = Some input ->
            load_file filename this = (Throw msg, this))
        /\ isInfix filename msg = true
        /\ isInfix (pretty (error_line error)) msg = true).
Proof.
  split.
  - intros filename this Hopen. unfold load_file. by rewrite Hopen.
  - intros input error filename this Hparse.
    eexists. unfold load_file, load_string, load_stream. rewrite Hparse.
    split; [reflexivity|]. split; [reflexivity|]. split.
    + intros ->. by rewrite Hparse.
    + split.
      * apply isInfix_append_l, isInfix_append_l, isInfix_prefix,
          prefix_append.
      * do 6 apply isInfix_append_l. apply isInfix_prefix, prefix_refl.
Qed.

End MoreInput.

(** ** checkPolicy: signatures, later rules, kinds *)

Lemma Name_get_last_two (signedName : Name) (info value : string) :
  Name_get (signedName ++ [info; value]) (-2) = Some info
  /\ Name_get (signedName ++ [info; value]) (-1) = Some value.
Proof.
  assert (Hsize : Name_size (signedName ++ [info; value])
                  = Z.of_nat (List.length signedName) + 2).
  { unfold Name_size. rewrite length_app. simpl. lia. }
  split.
  - change (-2) with (- (2)). rewrite Name_get_from_end by done.
    rewrite Hsize.
    replace (2 <=? Z.of_nat (List.length signedName) + 2) with true by lia.
    replace (Z.to_nat (Z.of_nat (List.length signedName) + 2 - 2))
      with (List.length signedName) by lia.
    by rewrite list_lookup_middle.
  - change (-1) with (- (1)). rewrite Name_get_from_end by done.
    rewrite Hsize.
    replace (1 <=? Z.of_nat (List.length signedName) + 2) with true by lia.
    replace (Z.to_nat (Z.of_nat (List.length signedName) + 2 - 1))
      with (List.length (signedName ++ [info]))
      by (rewrite length_app; simpl; lia).
    change (signedName ++ [info; value])
      with (signedName ++ [info] ++ [value]).
    rewrite app_assoc. by rewrite list_lookup_middle.
Qed.

Section MorePolicy.
Context `{Collaborators} `{!RuleOps Data} `{!RuleOps Interest}.
Implicit Types (this : ValidatorConfig) (data : Data) (interest : Interest).
Implicit Types (stepCount : Z) (pre post : list Rule) (r : Rule).

(** X10.  When the first matching rule of an Interest has its [check]
    return 0, [checkSignature] is called with the signature made of the
    last two components of the name, the signature info from the last
    but one and the signature value from the last, and with the step
    counter as it was given, unchanged; that call ends the run. *)
Theorem checkPolicy_Interest_signature
    this interest stepCount signedName info value pre r post :
  Interest_getName interest = signedName ++ [info; value] ->
  m_stepLimit this ≠ stepCount ->
  m_interestRules this = pre ++ r :: post ->
  Forall (unmatched interest) pre ->
  Rule_match r interest = true ->
  (Rule_check r interest).1 = 0 ->
  checkPolicy_Interest this interest stepCount =
    Returned (noMatchEvents 0 (List.length pre)
                ++ [RuleMatch (List.length pre) true;
                    RuleCheck (List.length pre) 0 (Rule_check r interest).2;
                    CheckSignature
                      (mkSignature (blockFromValue info)
                                   (blockFromValue value))
                      stepCount]).
Proof.
  intros Hname Hn Hrules Hpre Hr Hc.
  rewrite (checkPolicy_Interest_matched _ _ _ _ _ _ Hn Hrules Hpre Hr).
  rewrite Hc, Hname. cbn [Z.eqb].
  destruct (Name_get_last_two signedName info value) as [-> ->].
  by rewrite <- app_assoc.
Qed.

Lemma matching_rule_splits {Packet} `{!RuleOps Packet}
    (rules : list Rule) (packet : Packet) :
  Exists (fun r => Rule_match r packet = true) rules ->
  exists pre r post,
    rules = pre ++ r :: post /\ Forall (unmatched packet) pre
    /\ Rule_match r packet = true.
Proof.
  intros Hex. destruct (first_match_split rules packet) as [Hall|?]; [|done].
  apply Exists_exists in Hex as (r & Hin & Hr).
  rewrite Forall_forall in Hall. specialize (Hall r Hin).
  unfold unmatched in Hall. congruence.
Qed.

Lemma checkPolicy_Data_later_rules this this' data stepCount :
  extends this this' ->
  Exists (fun r => Rule_match r data = true) (m_dataRules this) ->
  checkPolicy_Data this' data stepCount = checkPolicy_Data this data stepCount.
Proof.
  intros (_ & Hlimit & _ & [more Hmore] & _) Hex.
  destruct (decide (m_stepLimit this = stepCount)) as [Heq|Hn].
  { unfold checkPolicy_Data. rewrite Hlimit, Heq. by rewrite Z.eqb_refl. }
  destruct (matching_rule_splits _ _ Hex) as (pre & r & post & Hrules & Hpre & Hr).
  rewrite (checkPolicy_Data_matched this _ _ _ _ _ Hn Hrules Hpre Hr).
  apply (checkPolicy_Data_matched this' _ _ pre r (post ++ more));
    [congruence| |done..].
  by rewrite Hmore, Hrules, <- app_assoc.
Qed.

Lemma checkPolicy_Interest_later_rules this this' interest stepCount :
  extends this this' ->
  Exists (fun r => Rule_match r interest = true) (m_interestRules this) ->
  checkPolicy_Interest this' interest stepCount =
  checkPolicy_Interest this interest stepCount.
Proof.
  intros (_ & Hlimit & _ & _ & [more Hmore] & _) Hex.
  destruct (decide (m_stepLimit this = stepCount)) as [Heq|Hn].
  { unfold checkPolicy_Interest. rewrite Hlimit, Heq. by rewrite Z.eqb_refl. }
  destruct (matching_rule_splits _ _ Hex) as (pre & r & post & Hrules & Hpre & Hr).
  rewrite (checkPolicy_Interest_matched this _ _ _ _ _ Hn Hrules Hpre Hr).
  apply (checkPolicy_Interest_matched this' _ _ pre r (post ++ more));
    [congruence| |done..].
  by rewrite Hmore, Hrules, <- app_assoc.
Qed.

(** X11.  Once a rule of the validator matches a packet, nothing loaded
    afterwards changes what [checkPolicy] does with that packet: rules
    are appended, so the first matching rule stays the first.  This holds
    for any later validator that extends the present one, and so for the
    validator any [load] leaves, successful or not. *)
Theorem checkPolicy_unchanged_by_later_rules :
  (forall this this' data stepCount,
      extends this this' ->
      Exists (fun r => Rule_match r data = true) (m_dataRules this) ->
      checkPolicy_Data this' data stepCount =
      checkPolicy_Data this data stepCount)
  /\ (forall this this' interest stepCount,
      extends this this' ->
      Exists (fun r => Rule_match r interest = true) (m_interestRules this) ->
      checkPolicy_Interest this' interest stepCount =
      checkPolicy_Interest this interest stepCount)
  /\ (forall tree filename this res this' data interest stepCount,
      load tree filename this = (res, this') ->
      (Exists (fun r => Rule_match r data = true) (m_dataRules this) ->
       checkPolicy_Data this' data stepCount =
       checkPolicy_Data this data stepCount)
      /\ (Exists (fun r => Rule_match r interest = true)
                 (m_interestRules this) ->
          checkPolicy_Interest this' interest stepCount =
          checkPolicy_Interest this interest stepCount)).
Proof.
  split; [apply checkPolicy_Data_later_rules|].
  split; [apply checkPolicy_Interest_later_rules|].
  intros tree filename this res this' data interest stepCount
    Hload%load_tree_extends.
  split; intros Hex.
  - by apply checkPolicy_Data_later_rules.
  - by apply checkPolicy_Interest_later_rules.
Qed.

(** What a section of the tree does to the two rule lists. *)
Lemma onSection_rule_lists sectionName section filename this res this' :
  onSection sectionName section filename this = (res, this') ->
  m_stepLimit this' = m_stepLimit this
  /\ (iequals sectionName "rule" && ruleSectionForData section = false ->
      m_dataRules this' = m_dataRules this)
  /\ (iequals sectionName "rule" && negb (ruleSectionForData section) = false
      -> m_interestRules this' = m_interestRules this).
Proof.
  unfold onSection. destruct (iequals sectionName "rule"); cbn [andb].
  - destruct (onConfigRule_outcome section filename this)
      as [Hok|[e ->]]; [|by intros [= _ <-]].
    apply onConfigRule_Ok_iff in Hok.
    destruct (onConfigRule_loaded section filename this Hok)
      as (rule & -> & _).
    intros [= _ <-].
    destruct (ruleSectionForData section); cbn [negb]; by repeat split.
  - intros Hrun.
    assert (m_stepLimit this' = m_stepLimit this
            /\ m_dataRules this' = m_dataRules this
            /\ m_interestRules this' = m_interestRules this)
      as (? & ? & ?); [|done].
    destruct (iequals sectionName "trust-anchor");
      [|by injection Hrun as _ <-].
    assert (res = Ok tt \/ res ≠ Ok tt) as [->|Hres]
      by (destruct res as [[]| |]; auto).
    + by apply onConfigTrustAnchor_Ok in Hrun as (idCert & _ & _ & ->).
    + by rewrite (onConfigTrustAnchor_failure _ _ _ _ _ Hrun Hres).
Qed.

(** X12.  The two kinds of rules are kept apart: a section of the tree
    that is not a rule for [data] (a rule for [interest], a trust anchor,
    an unknown or a failing section) leaves [checkPolicy] for every Data
    as it was, and a section that is not a rule for [interest] leaves
    [checkPolicy] for every Interest as it was. *)
Theorem onSection_keeps_other_kind
    sectionName section filename this res this' :
  onSection sectionName section filename this = (res, this') ->
  (iequals sectionName "rule" && ruleSectionForData section = false ->
   forall data stepCount,
     checkPolicy_Data this' data stepCount =
     checkPolicy_Data this data stepCount)
  /\ (iequals sectionName "rule" && negb (ruleSectionForData section) = false
      -> forall interest stepCount,
        checkPolicy_Interest this' interest stepCount =
        checkPolicy_Interest this interest stepCount).
Proof.
  intros (Hlimit & Hd & Hi)%onSection_rule_lists. split.
  - intros Hkind data stepCount. unfold checkPolicy_Data.
    by rewrite Hlimit, (Hd Hkind).
  - intros Hkind interest stepCount. unfold checkPolicy_Interest.
    by rewrite Hlimit, (Hi Hkind).
Qed.

Lemma scan_events_not_terminal (t : list Event) :
  Forall (fun e => isScanEvent e = true) t ->
  List.filter isOwnTerminal t = [].
Proof.
  induction 1 as [|e t He _ IH]; [done|]. cbn [List.filter].
  rewrite IH. by destruct e.
Qed.

(** X13.  [checkPolicy] ends a validation at most once by itself: in any
    run it invokes the failure callback or calls [checkSignature] at most
    one time in all, never both and never twice. *)
Theorem checkPolicy_at_most_one_terminal this data interest stepCount :
  (List.length (List.filter isOwnTerminal
                  (traceOf (checkPolicy_Data this data stepCount))) <= 1)%nat
  /\ (List.length (List.filter isOwnTerminal
                     (traceOf (checkPolicy_Interest this interest stepCount)))
      <= 1)%nat.
Proof.
  destruct (decide (m_stepLimit this = stepCount)) as [Heq|Hn].
  { unfold checkPolicy_Data, checkPolicy_Interest.
    rewrite Heq, Z.eqb_refl. simpl. lia. }
  split.
  - destruct (checkPolicy_Data_trace this data stepCount Hn)
      as (tail & -> & Htail).
    rewrite List.filter_app, length_app,
      (scan_events_not_terminal _ (scanRules_events _ _ _)).
    destruct Htail as [-> | [-> | ->]]; simpl; lia.
  - destruct (checkPolicy_Interest_trace this interest stepCount Hn)
      as (tail & -> & Htail).
    rewrite List.filter_app, length_app,
      (scan_events_not_terminal _ (scanRules_events _ _ _)).
    destruct Htail as [-> | [-> | [sig ->]]]; simpl; lia.
Qed.

(** X14.  A validator that has just been constructed holds no rule, so
    it accepts nothing: until a configuration is loaded, [checkPolicy]
    fails every Data and every Interest, with "No rule matched!" or, at
    the step limit, with the step-limit reason. *)
Theorem new_validator_rejects_all
    face certificateCache stepLimit this data interest stepCount :
  ValidatorConfig_new face certificateCache stepLimit = Ok this ->
  let reason :=
    if stepLimit =? stepCount then maxStepsReached else noRuleMatched in
  checkPolicy_Data this data stepCount = Returned [OnValidationFailed reason]
  /\ checkPolicy_Interest this interest stepCount =
       Returned [OnValidationFailed reason].
Proof.
  unfold ValidatorConfig_new.
  destruct face as [f|]; [|done].
  destruct certificateCache as [c|]; cbn [m_certificateCache];
    intros [= <-]; unfold checkPolicy_Data, checkPolicy_Interest;
    cbn [m_stepLimit m_dataRules m_interestRules set_certificateCache
         scanRules];
    by destruct (stepLimit =? stepCount).
Qed.

End MorePolicy.

(** ** Invariants of the validator *)
Section Invariants.
Context `{Collaborators}.
Implicit Types (this : ValidatorConfig) (filename : string).

Ltac run_action :=
  unfold mbind, Action_bind, lift, ret, throw, modify, assert in *;
  cbn beta iota in *.

(** What holds before and is kept by every section holds after [load],
    however [load] ends. *)
Lemma load_keeps (P : ValidatorConfig -> Prop) :
  (forall sectionName section filename this res this',
      P this -> onSection sectionName section filename this = (res, this') ->
      P this') ->
  forall tree filename this res this',
    P this -> load tree filename this = (res, this') -> P this'.
Proof.
  intros Hstep tree filename this res this' HP. unfold load. run_action.
  destruct (negb (String.eqb filename EmptyString)); [|by intros [= _ <-]].
  destruct (isEnd (cs_children tree)); [by intros [= _ <-]|].
  generalize (cs_children tree). intros sections. revert this HP.
  induction sections as [|[name section] sections IH]; intros this HP.
  - by intros [= _ <-].
  - cbn [loadSections]. run_action.
    destruct (onSection name section filename this) as [r this1] eqn:Hs.
    apply (Hstep _ _ _ _ _ _ HP) in Hs.
    destruct r as [[]| |]; [by apply IH|by intros [= _ <-]..].
Qed.

Lemma onConfigRule_state section filename this res this' :
  onConfigRule section filename this = (res, this') ->
  this' = this
  \/ exists rule,
      m_checkers rule ≠ []
      /\ (this' = push_dataRule rule this
          \/ this' = push_interestRule rule this).
Proof.
  destruct (onConfigRule_outcome section filename this) as [Hok|[e ->]];
    [|intros [= _ <-]; by left].
  apply onConfigRule_Ok_iff in Hok.
  destruct (onConfigRule_loaded section filename this Hok)
    as (rule & -> & _ & _ & Hcs).
  intros [= _ <-]. right. exists rule. split.
  - apply andb_true_iff in Hok as [Hg _].
    destruct section as [d [|idEntry [|forEntry rest]]]; try done.
    unfold ruleGrammar in Hg. apply andb_true_iff in Hg as [_ Hg].
    unfold tailGrammar in Hg. apply andb_true_iff in Hg as [Hne _].
    cbn [cs_children skipn] in Hcs. rewrite ?drop_0 in Hcs.
    intros Hnil. rewrite Hnil in Hcs. apply Forall2_nil_inv_r in Hcs.
    by rewrite Hcs in Hne.
  - destruct (ruleSectionForData section); auto.
Qed.

Lemma onSection_state sectionName section filename this res this' :
  onSection sectionName section filename this = (res, this') ->
  this' = this
  \/ (exists rule,
        m_checkers rule ≠ []
        /\ (this' = push_dataRule rule this
            \/ this' = push_interestRule rule this))
  \/ (exists idCert,
        1 <= Name_size (Cert_getName idCert)
        /\ this' = set_anchor (getPrefix (-1) (Cert_getName idCert))
                              idCert this).
Proof.
  unfold onSection. destruct (iequals sectionName "rule").
  - intros [->|Hrule]%onConfigRule_state; auto.
  - destruct (iequals sectionName "trust-anchor");
      [|intros [= _ <-]; by left].
    intros Hrun.
    assert (res = Ok tt \/ res ≠ Ok tt) as [->|Hres]
      by (destruct res as [[]| |]; auto).
    + apply onConfigTrustAnchor_Ok in Hrun as (idCert & _ & ? & ->).
      right; right. eauto.
    + left. by eapply onConfigTrustAnchor_failure.
Qed.

(** X15.  Every rule of a validator has at least one checker: this holds
    of a new validator and is kept by [load], however [load] ends. *)
Theorem rules_have_checkers :
  (forall face certificateCache stepLimit this,
      ValidatorConfig_new face certificateCache stepLimit = Ok this ->
      rulesHaveCheckers this)
  /\ (forall tree filename this res this',
      rulesHaveCheckers this ->
      load tree filename this = (res, this') ->
      rulesHaveCheckers this').
Proof.
  split.
  - intros [f|] [c|] stepLimit this; try done; intros [= <-]; by split.
  - apply load_keeps.
    intros name section filename this res this' [Hd Hi].
    intros [->|[(rule & Hrule & [-> | ->])|(idCert & _ & ->)]]%onSection_state;
      split; try done;
      cbn [push_dataRule push_interestRule m_dataRules m_interestRules];
      apply Forall_app; split; try done; by constructor.
Qed.

(** X16.  Every trust anchor of a validator has a non-empty name and is
    stored under that name without its last component: this holds of a
    new validator and is kept by [load], however [load] ends. *)
Theorem anchors_keyed_by_name :
  (forall face certificateCache stepLimit this,
      ValidatorConfig_new face certificateCache stepLimit = Ok this ->
      anchorsKeyedByName this)
  /\ (forall tree filename this res this',
      anchorsKeyedByName this ->
      load tree filename this = (res, this') ->
      anchorsKeyedByName this').
Proof.
  split.
  - intros [f|] [c|] stepLimit this; try done; intros [= <-] key idCert;
      cbn [m_anchors set_certificateCache]; by rewrite lookup_empty.
  - apply load_keeps.
    intros name section filename this res this' Hinv.
    intros [->|[(rule & _ & [-> | ->])|(idCert & Hsize & ->)]]%onSection_state;
      try done.
    intros key idCert'. cbn [set_anchor m_anchors].
    intros [[<- <-]|[_ Hold]]%lookup_insert_Some; [done|by apply Hinv].
Qed.

End Invariants.

(** ** The further properties on sample inputs *)
Import SampleInput.

Lemma load_empty_tree_witness :
  load (Node EmptyString []) confFile (validator 3 [] []) =
    (Throw "Error processing configuration file: /etc/ndn/validator.conf no data",
     validator 3 [] []).
Proof.
  refine (load_empty_tree EmptyString confFile (validator 3 [] []) _).
  discriminate.
Defined.

Lemma load_extends_witness :
  extends (validator 3 [] []) (push_dataRule goodRuleLoaded (validator 3 [] [])).
Proof.
  refine (proj1 load_extends brokenTree confFile (validator 3 [] [])
            (Throw _) _ _).
  reflexivity.
Defined.

Lemma load_app_witness :
  load (Node EmptyString ([goodRule] ++ [bogusSection])) confFile
       (validator 3 [] []) =
    match load (Node EmptyString [goodRule]) confFile (validator 3 [] []) with
    | (Ok _, this1) => load (Node EmptyString [bogusSection]) confFile this1
    | other => other
    end.
Proof.
  refine (load_app EmptyString EmptyString EmptyString
            [goodRule] [bogusSection] confFile (validator 3 [] []) _ _ _);
    discriminate.
Defined.

Lemma onConfigRule_adds_rule_witness :
  exists rule,
    onConfigRule (snd goodRule) confFile (validator 3 [] []) =
      (Ok tt, push_dataRule rule (validator 3 [] []))
    /\ m_id rule = "r1"
    /\ Forall2 (fun e f => FilterFactory_create (snd e) = inr f)
               [filterEntry ["a"]] (m_filters rule)
    /\ Forall2 (fun e c => CheckerFactory_create (snd e) confFile = inr c)
               [entry "checker" "continue"] (m_checkers rule)
    /\ m_checkers rule ≠ [].
Proof.
  refine (onConfigRule_adds_rule (snd goodRule) confFile (validator 3 [] []) _).
  reflexivity.
Defined.

Lemma load_rule_sections_in_order_witness :
  exists this',
    load twoRules confFile (validator 3 [] []) = (Ok tt, this')
    /\ map m_id (m_dataRules this') = ["r1"]
    /\ map m_id (m_interestRules this') = ["r3"]
    /\ m_anchors this' = ∅
    /\ m_stepLimit this' = 3.
Proof.
  refine (load_rule_sections_in_order EmptyString (cs_children twoRules)
            confFile (validator 3 [] []) _ _ _).
  - discriminate.
  - discriminate.
  - reflexivity.
Defined.

Lemma keys_up_to_case_witness :
  onConfigRule (snd goodRule) confFile (validator 3 [] []) =
  onConfigRule goodRuleUpperCase confFile (validator 3 [] []).
Proof.
  refine (proj1 keys_up_to_case _ _ (cs_children (snd goodRule))
            (cs_children goodRuleUpperCase) confFile (validator 3 [] []) _).
  repeat constructor.
Defined.

Lemma onConfigTrustAnchor_loads_iff_witness :
  onConfigTrustAnchor fileAnchor confFile (validator 3 [] [])
  = (Ok tt, anchorLoaded).
Proof.
  refine (proj2 (proj1 (onConfigTrustAnchor_loads_iff fileAnchor confFile
                          (validator 3 [] [])) anchorLoaded) _).
  exists anchorCert. split; [reflexivity|]. split; [discriminate|reflexivity].
Defined.

Lemma onConfigTrustAnchor_replaces_witness :
  onConfigTrustAnchor fileAnchor confFile anchorLoaded = (Ok tt, anchorLoaded).
Proof.
  refine (proj2 (onConfigTrustAnchor_replaces fileAnchor confFile
                   (validator 3 [] []) anchorLoaded _)).
  reflexivity.
Defined.

Lemma load_unreadable_or_unparsable_witness :
  load_file "/etc/ndn/missing.conf" (validator 3 [] []) =
    (Throw "Failed to read configuration file: /etc/ndn/missing.conf",
     validator 3 [] []).
Proof.
  refine (proj1 load_unreadable_or_unparsable "/etc/ndn/missing.conf"
            (validator 3 [] []) _).
  reflexivity.
Defined.

Lemma checkPolicy_Interest_signature_witness :
  checkPolicy_Interest (validator 3 [] [r1]) signed 0 =
    Returned [RuleMatch 0 true; RuleCheck 0 0 [];
              CheckSignature
                (mkSignature (blockFromValue "info") (blockFromValue "value"))
                0].
Proof.
  refine (checkPolicy_Interest_signature (validator 3 [] [r1]) signed 0
            ["a"] "info" "value" [] r1 [] eq_refl _ eq_refl _ eq_refl eq_refl).
  - discriminate.
  - constructor.
Defined.

Lemma checkPolicy_unchanged_by_later_rules_witness :
  checkPolicy_Data (validator 3 [r1; r2] []) packet 0 =
  checkPolicy_Data (validator 3 [r1] []) packet 0.
Proof.
  refine (proj1 checkPolicy_unchanged_by_later_rules
            (validator 3 [r1] []) (validator 3 [r1; r2] []) packet 0 _ _).
  - repeat split; try reflexivity. by exists [r2].
  - by constructor.
Defined.

Lemma onSection_keeps_other_kind_witness :
  checkPolicy_Data anchorLoaded packet 0 =
  checkPolicy_Data (validator 3 [] []) packet 0.
Proof.
  refine (proj1 (onSection_keeps_other_kind "trust-anchor" fileAnchor confFile
                   (validator 3 [] []) (Ok tt) anchorLoaded eq_refl)
            eq_refl packet 0).
Defined.

Lemma new_validator_rejects_all_witness :
  checkPolicy_Data (validator 3 [] []) packet 0 =
    Returned [OnValidationFailed noRuleMatched]
  /\ checkPolicy_Interest (validator 3 [] []) signed 0 =
       Returned [OnValidationFailed noRuleMatched].
Proof.
  refine (new_validator_rejects_all (Some (mkFace 7)) None 3
            (validator 3 [] []) packet signed 0 eq_refl).
Defined.

Lemma rules_have_checkers_witness :
  rulesHaveCheckers (push_dataRule goodRuleLoaded (validator 3 [] [])).
Proof.
  refine (proj2 rules_have_checkers brokenTree confFile (validator 3 [] [])
            (Throw _) _ _ eq_refl).
  split; constructor.
Defined.

Lemma anchors_keyed_by_name_witness : anchorsKeyedByName anchorLoaded.
Proof.
  refine (proj2 anchors_keyed_by_name anchorTree confFile (validator 3 [] [])
            (Ok tt) anchorLoaded _ eq_refl).
  intros key idCert Hin. unfold validator in Hin. cbn [m_anchors] in Hin.
  by rewrite lookup_empty in Hin.
Defined.
